(** * Wet Section Buffer Counter: edge detection and release cooldown

    A shallow embedding of [read_inputs_and_update], the polling callback of
    the two scripts of the repository:

    - [src/wsbc_script.py]       (module [Wsbc]: one shared [SENSOR_DELAY]);
    - [src/test_wsbc_script.py]  (module [TestWsbc]: one delay per sensor and
      a trend graph fed whenever a displayed count changed).

    The callback works on module-level globals; here they are a record that
    is passed in and returned.  The hardware HAT, the wall clock and the Tk
    widgets are collaborators: a tick receives the answers of [rel.get_in]
    and the value of [int(time.time() * 1000)], and returns the calls it made
    on the cards together with the delay it handed to [main.after]. *)

From Stdlib Require Import String.
From Stdlib Require Import ZArith List Bool Lia.
Import ListNotations.
Open Scope Z_scope.

(** ** Collaborators *)

(** [rel.get_in(channel)]: the level read on an input line, or [None] when
    the call raises. *)
Definition Hardware := Z -> option Z.

Definition CHANNEL_OHB_ADD : Z := 1.
Definition CHANNEL_OHB_SUB : Z := 2.
Definition CHANNEL_WS_ADD : Z := 3.
Definition CHANNEL_WS_SUB : Z := 4.

(** The four raw levels [s1], [s2], [s3], [s4] of one tick. *)
Record Samples := mkSamples { s1 : Z; s2 : Z; s3 : Z; s4 : Z }.

(** Calls made on the display: [total_card.set_value], [ohb_card.set_value],
    [ws_card.set_value] and, in the second script only,
    [graph_panel.update_series] (its wall-clock [timestamp] argument is a
    float and is not recorded). *)
Inductive UiCall :=
| TotalSetValue (v : Z)
| OhbSetValue (v : Z)
| WsSetValue (v : Z)
| GraphUpdateSeries (ohb ws : Z).

Definition is_set_value (c : UiCall) : bool :=
  match c with GraphUpdateSeries _ _ => false | _ => true end.

(** The [try] block is a chain of reads, each of which may raise. *)
Definition bind_read {A B} (r : option A) (k : A -> option B) : option B :=
  match r with Some a => k a | None => None end.

Notation "x <- r ;; k" := (bind_read r (fun x => k))
  (at level 61, r at next level, right associativity).

(** Lines 273-277 (first script), 535-539 (second script): the four reads,
    in this order; the first one that raises abandons the rest. *)
Definition read_inputs (rel : Hardware) : option Samples :=
  a <- rel CHANNEL_OHB_ADD ;;
  b <- rel CHANNEL_OHB_SUB ;;
  c <- rel CHANNEL_WS_ADD ;;
  d <- rel CHANNEL_WS_SUB ;;
  Some (mkSamples a b c d).

(** The four sensors, by the role they play. *)
Inductive Channel := OHB_ADD | OHB_SUB | WS_ADD | WS_SUB.

Definition channel_id (ch : Channel) : Z :=
  match ch with
  | OHB_ADD => CHANNEL_OHB_ADD
  | OHB_SUB => CHANNEL_OHB_SUB
  | WS_ADD => CHANNEL_WS_ADD
  | WS_SUB => CHANNEL_WS_SUB
  end.

Definition sample_of (ch : Channel) (s : Samples) : Z :=
  match ch with
  | OHB_ADD => s1 s
  | OHB_SUB => s2 s
  | WS_ADD => s3 s
  | WS_SUB => s4 s
  end.

(** The debounce state of one sensor: its [sig_*_detected] flag and its
    [timer_*] release timestamp. *)
Record Debounce := mkDebounce { is_held : bool; last_release_time : Z }.

Definition fresh : Debounce := mkDebounce false 0.

(** What a tick hands back: the globals, the display calls in the order they
    were made, and the delay given to [main.after]. *)
Record Outcome (G : Type) := mkOutcome
  { globals : G; ui : list UiCall; after_ms : Z }.
Arguments mkOutcome {G}.
Arguments globals {G}.
Arguments ui {G}.
Arguments after_ms {G}.

(** One firing of the timer: what the HAT answers and what the clock shows. *)
Record Tick := mkTick { rel : Hardware; now_ms : Z }.

(** The level a tick sees on one channel, when its reads go through. *)
Definition sampled (ch : Channel) (t : Tick) : option Z :=
  option_map (sample_of ch) (read_inputs (rel t)).

(** ** First script: [src/wsbc_script.py] *)

Module Wsbc.

Record Config := mkConfig { SENSOR_DELAY : Z; POLL_INTERVAL_MS : Z }.

(** Lines 33-34. *)
Definition default_config : Config := mkConfig 1000 10.

(** The globals named by the [global] statements of the callback. *)
Record Globals := mkGlobals
  { count_ohb : Z; count_ws : Z; sum_ohb : Z; sum_ws : Z;
    prev_total : Z; prev_ohb : Z; prev_ws : Z;
    sig_ohb_add_detected : bool; sig_ohb_sub_detected : bool;
    sig_ws_add_detected : bool; sig_ws_sub_detected : bool;
    timer_ohb_add : Z; timer_ohb_sub : Z; timer_ws_add : Z; timer_ws_sub : Z }.

(** Lines 39-60. *)
Definition initial : Globals :=
  mkGlobals 0 0 0 0 (-1) (-1) (-1) false false false false 0 0 0 0.

(** Assignments to one global. *)
Definition set_sum_ohb (v : Z) (g : Globals) : Globals :=
  let (a, b, _, d, e, f, h, i, j, k, l, m, n, o, p) := g in
  mkGlobals a b v d e f h i j k l m n o p.
Definition set_sum_ws (v : Z) (g : Globals) : Globals :=
  let (a, b, c, _, e, f, h, i, j, k, l, m, n, o, p) := g in
  mkGlobals a b c v e f h i j k l m n o p.
Definition set_prev_total (v : Z) (g : Globals) : Globals :=
  let (a, b, c, d, _, f, h, i, j, k, l, m, n, o, p) := g in
  mkGlobals a b c d v f h i j k l m n o p.
Definition set_prev_ohb (v : Z) (g : Globals) : Globals :=
  let (a, b, c, d, e, _, h, i, j, k, l, m, n, o, p) := g in
  mkGlobals a b c d e v h i j k l m n o p.
Definition set_prev_ws (v : Z) (g : Globals) : Globals :=
  let (a, b, c, d, e, f, _, i, j, k, l, m, n, o, p) := g in
  mkGlobals a b c d e f v i j k l m n o p.
Definition set_sig_ohb_add_detected (v : bool) (g : Globals) : Globals :=
  let (a, b, c, d, e, f, h, _, j, k, l, m, n, o, p) := g in
  mkGlobals a b c d e f h v j k l m n o p.
Definition set_sig_ohb_sub_detected (v : bool) (g : Globals) : Globals :=
  let (a, b, c, d, e, f, h, i, _, k, l, m, n, o, p) := g in
  mkGlobals a b c d e f h i v k l m n o p.
Definition set_sig_ws_add_detected (v : bool) (g : Globals) : Globals :=
  let (a, b, c, d, e, f, h, i, j, _, l, m, n, o, p) := g in
  mkGlobals a b c d e f h i j v l m n o p.
Definition set_sig_ws_sub_detected (v : bool) (g : Globals) : Globals :=
  let (a, b, c, d, e, f, h, i, j, k, _, m, n, o, p) := g in
  mkGlobals a b c d e f h i j k v m n o p.
Definition set_timer_ohb_add (v : Z) (g : Globals) : Globals :=
  let (a, b, c, d, e, f, h, i, j, k, l, _, n, o, p) := g in
  mkGlobals a b c d e f h i j k l v n o p.
Definition set_timer_ohb_sub (v : Z) (g : Globals) : Globals :=
  let (a, b, c, d, e, f, h, i, j, k, l, m, _, o, p) := g in
  mkGlobals a b c d e f h i j k l m v o p.
Definition set_timer_ws_add (v : Z) (g : Globals) : Globals :=
  let (a, b, c, d, e, f, h, i, j, k, l, m, n, _, p) := g in
  mkGlobals a b c d e f h i j k l m n v p.
Definition set_timer_ws_sub (v : Z) (g : Globals) : Globals :=
  let (a, b, c, d, e, f, h, i, j, k, l, m, n, o, _) := g in
  mkGlobals a b c d e f h i j k l m n o v.

(** Lines 290-301: overhead buffer add, channel 1. *)
Definition block_ohb_add (cfg : Config) (s1 now_ms : Z) (g : Globals) : Globals :=
  if (s1 =? 1) && negb (sig_ohb_add_detected g) then
    let g := set_sig_ohb_add_detected true g in
    if now_ms - timer_ohb_add g >=? SENSOR_DELAY cfg then
      set_sum_ohb (sum_ohb g + 1) g
    else g
  else if negb (s1 =? 1) && sig_ohb_add_detected g then
    let g := set_timer_ohb_add now_ms g in
    set_sig_ohb_add_detected false g
  else g.

(** Lines 306-313: overhead buffer subtract, channel 2. *)
Definition block_ohb_sub (cfg : Config) (s2 now_ms : Z) (g : Globals) : Globals :=
  if (s2 =? 1) && negb (sig_ohb_sub_detected g) then
    let g := set_sig_ohb_sub_detected true g in
    if now_ms - timer_ohb_sub g >=? SENSOR_DELAY cfg then
      if sum_ohb g >? 0 then set_sum_ohb (sum_ohb g - 1) g else g
    else g
  else if negb (s2 =? 1) && sig_ohb_sub_detected g then
    let g := set_timer_ohb_sub now_ms g in
    set_sig_ohb_sub_detected false g
  else g.

(** Lines 318-324: wet section add, channel 3. *)
Definition block_ws_add (cfg : Config) (s3 now_ms : Z) (g : Globals) : Globals :=
  if (s3 =? 1) && negb (sig_ws_add_detected g) then
    let g := set_sig_ws_add_detected true g in
    if now_ms - timer_ws_add g >=? SENSOR_DELAY cfg then
      set_sum_ws (sum_ws g + 1) g
    else g
  else if negb (s3 =? 1) && sig_ws_add_detected g then
    let g := set_timer_ws_add now_ms g in
    set_sig_ws_add_detected false g
  else g.

(** Lines 329-336: wet section subtract, channel 4. *)
Definition block_ws_sub (cfg : Config) (s4 now_ms : Z) (g : Globals) : Globals :=
  if (s4 =? 1) && negb (sig_ws_sub_detected g) then
    let g := set_sig_ws_sub_detected true g in
    if now_ms - timer_ws_sub g >=? SENSOR_DELAY cfg then
      if sum_ws g >? 0 then set_sum_ws (sum_ws g - 1) g else g
    else g
  else if negb (s4 =? 1) && sig_ws_sub_detected g then
    let g := set_timer_ws_sub now_ms g in
    set_sig_ws_sub_detected false g
  else g.

(** Lines 341-353: the cards are told of a value only when it differs from
    the one remembered in [prev_*]. *)
Definition update_ui (g : Globals) : Globals * list UiCall :=
  let total := sum_ohb g + sum_ws g in
  let '(g, calls) :=
    if negb (total =? prev_total g)
    then (set_prev_total total g, [TotalSetValue total])
    else (g, []) in
  let '(g, calls) :=
    if negb (sum_ohb g =? prev_ohb g)
    then (set_prev_ohb (sum_ohb g) g, calls ++ [OhbSetValue (sum_ohb g)])
    else (g, calls) in
  let '(g, calls) :=
    if negb (sum_ws g =? prev_ws g)
    then (set_prev_ws (sum_ws g) g, calls ++ [WsSetValue (sum_ws g)])
    else (g, calls) in
  (g, calls).

(** Lines 286-336: the four blocks, in source order, all with the one
    [now_ms] of the tick. *)
Definition debounce_all (cfg : Config) (s : Samples) (now_ms : Z) (g : Globals)
  : Globals :=
  let g := block_ohb_add cfg (s1 s) now_ms g in
  let g := block_ohb_sub cfg (s2 s) now_ms g in
  let g := block_ws_add cfg (s3 s) now_ms g in
  let g := block_ws_sub cfg (s4 s) now_ms g in
  g.

(** Lines 256-356.  [now_ms] is [int(time.time() * 1000)], read only after
    the four reads went through. *)
Definition read_inputs_and_update
    (cfg : Config) (rel : Hardware) (now_ms : Z) (g : Globals) : Outcome Globals :=
  match read_inputs rel with
  | None =>
      (* hardware read failed; retry after a short delay *)
      mkOutcome g [] (Z.max 200 (POLL_INTERVAL_MS cfg))
  | Some s =>
      let g := debounce_all cfg s now_ms g in
      let '(g, calls) := update_ui g in
      mkOutcome g calls (POLL_INTERVAL_MS cfg)
  end.

(** *** The four blocks as one debouncer

    The four blocks are the same text up to the names of the flag, of the
    timer and of the counted sum.  [process_sample] is that text once, on the
    flag and timer of one sensor (lines 290-301), returning whether the
    counting branch (line 296, resp. 309, 321, 332) was entered. *)
Definition process_sample (delay raw now_ms : Z) (d : Debounce) : Debounce * bool :=
  if (raw =? 1) && negb (is_held d) then
    (mkDebounce true (last_release_time d),
     now_ms - last_release_time d >=? delay)
  else if negb (raw =? 1) && is_held d then
    (mkDebounce false now_ms, false)
  else (d, false).

(** The flag and timer of a sensor among the globals. *)
Definition view (ch : Channel) (g : Globals) : Debounce :=
  match ch with
  | OHB_ADD => mkDebounce (sig_ohb_add_detected g) (timer_ohb_add g)
  | OHB_SUB => mkDebounce (sig_ohb_sub_detected g) (timer_ohb_sub g)
  | WS_ADD => mkDebounce (sig_ws_add_detected g) (timer_ws_add g)
  | WS_SUB => mkDebounce (sig_ws_sub_detected g) (timer_ws_sub g)
  end.

Definition set_view (ch : Channel) (d : Debounce) (g : Globals) : Globals :=
  match ch with
  | OHB_ADD =>
      set_sig_ohb_add_detected (is_held d) (set_timer_ohb_add (last_release_time d) g)
  | OHB_SUB =>
      set_sig_ohb_sub_detected (is_held d) (set_timer_ohb_sub (last_release_time d) g)
  | WS_ADD =>
      set_sig_ws_add_detected (is_held d) (set_timer_ws_add (last_release_time d) g)
  | WS_SUB =>
      set_sig_ws_sub_detected (is_held d) (set_timer_ws_sub (last_release_time d) g)
  end.

(** The single [SENSOR_DELAY] serves every sensor. *)
Definition delay_of (cfg : Config) (ch : Channel) : Z := SENSOR_DELAY cfg.

(** The counting branch of each block: lines 296, 309-310, 321, 332-333. *)
Definition count_event (ch : Channel) (g : Globals) : Globals :=
  match ch with
  | OHB_ADD => set_sum_ohb (sum_ohb g + 1) g
  | OHB_SUB => if sum_ohb g >? 0 then set_sum_ohb (sum_ohb g - 1) g else g
  | WS_ADD => set_sum_ws (sum_ws g + 1) g
  | WS_SUB => if sum_ws g >? 0 then set_sum_ws (sum_ws g - 1) g else g
  end.

Definition block (ch : Channel) (cfg : Config) (s : Samples) (now_ms : Z)
  : Globals -> Globals :=
  match ch with
  | OHB_ADD => block_ohb_add cfg (s1 s) now_ms
  | OHB_SUB => block_ohb_sub cfg (s2 s) now_ms
  | WS_ADD => block_ws_add cfg (s3 s) now_ms
  | WS_SUB => block_ws_sub cfg (s4 s) now_ms
  end.

(** Whether the block of [ch] enters its counting branch on this tick. *)
Definition emits (cfg : Config) (ch : Channel) (s : Samples) (now_ms : Z)
    (g : Globals) : bool :=
  snd (process_sample (delay_of cfg ch) (sample_of ch s) now_ms (view ch g)).

Definition channel_step (cfg : Config) (ch : Channel) (s : Samples) (now_ms : Z)
    (g : Globals) : Globals :=
  let '(d, ev) :=
    process_sample (delay_of cfg ch) (sample_of ch s) now_ms (view ch g) in
  let g := set_view ch d g in
  if ev then count_event ch g else g.

(** *** Runs of the timer loop *)

Definition step (cfg : Config) (t : Tick) (g : Globals) : Globals :=
  globals (read_inputs_and_update cfg (rel t) (now_ms t) g).

Fixpoint run (cfg : Config) (ticks : list Tick) (g : Globals) : Globals :=
  match ticks with
  | [] => g
  | t :: rest => run cfg rest (step cfg t g)
  end.

(** Whether channel [ch] counts on tick [t]: never when the read fails. *)
Definition tick_event (cfg : Config) (ch : Channel) (t : Tick) (g : Globals)
  : bool :=
  match read_inputs (rel t) with
  | None => false
  | Some s => emits cfg ch s (now_ms t) g
  end.

(** The events of one channel along a run, one flag per tick. *)
Fixpoint events_of (cfg : Config) (ch : Channel) (ticks : list Tick)
    (g : Globals) : list bool :=
  match ticks with
  | [] => []
  | t :: rest => tick_event cfg ch t g :: events_of cfg ch rest (step cfg t g)
  end.

(** The debouncer of one sensor fed a stream of (level, time) pairs. *)
Fixpoint run_channel (delay : Z) (samples : list (Z * Z)) (d : Debounce)
  : Debounce * list bool :=
  match samples with
  | [] => (d, [])
  | (raw, now_ms) :: rest =>
      let '(d1, ev) := process_sample delay raw now_ms d in
      let '(d2, evs) := run_channel delay rest d1 in
      (d2, ev :: evs)
  end.

End Wsbc.

(** ** Second script: [src/test_wsbc_script.py] *)

Module TestWsbc.

(** Lines 93-98: one cooldown per sensor, and the poll interval. *)
Record Config := mkConfig
  { OHB_ADD_DELAY_MS : Z; OHB_SUB_DELAY_MS : Z;
    WS_ADD_DELAY_MS : Z; WS_SUB_DELAY_MS : Z;
    POLL_INTERVAL_MS : Z }.

Definition default_config : Config := mkConfig 1000 1000 1000 1000 10.

(** The globals named by the [global] statements of the callback. *)
Record Globals := mkGlobals
  { sum_ohb : Z; sum_ws : Z;
    prev_total : Z; prev_ohb : Z; prev_ws : Z;
    sig_ohb_add_detected : bool; sig_ohb_sub_detected : bool;
    sig_ws_add_detected : bool; sig_ws_sub_detected : bool;
    timer_ohb_add : Z; timer_ohb_sub : Z; timer_ws_add : Z; timer_ws_sub : Z }.

(** Lines 103-121. *)
Definition initial : Globals :=
  mkGlobals 0 0 (-1) (-1) (-1) false false false false 0 0 0 0.

Definition set_sum_ohb (v : Z) (g : Globals) : Globals :=
  let (_, b, c, d, e, f, h, i, j, k, l, m, n) := g in
  mkGlobals v b c d e f h i j k l m n.
Definition set_sum_ws (v : Z) (g : Globals) : Globals :=
  let (a, _, c, d, e, f, h, i, j, k, l, m, n) := g in
  mkGlobals a v c d e f h i j k l m n.
Definition set_prev_total (v : Z) (g : Globals) : Globals :=
  let (a, b, _, d, e, f, h, i, j, k, l, m, n) := g in
  mkGlobals a b v d e f h i j k l m n.
Definition set_prev_ohb (v : Z) (g : Globals) : Globals :=
  let (a, b, c, _, e, f, h, i, j, k, l, m, n) := g in
  mkGlobals a b c v e f h i j k l m n.
Definition set_prev_ws (v : Z) (g : Globals) : Globals :=
  let (a, b, c, d, _, f, h, i, j, k, l, m, n) := g in
  mkGlobals a b c d v f h i j k l m n.
Definition set_sig_ohb_add_detected (v : bool) (g : Globals) : Globals :=
  let (a, b, c, d, e, _, h, i, j, k, l, m, n) := g in
  mkGlobals a b c d e v h i j k l m n.
Definition set_sig_ohb_sub_detected (v : bool) (g : Globals) : Globals :=
  let (a, b, c, d, e, f, _, i, j, k, l, m, n) := g in
  mkGlobals a b c d e f v i j k l m n.
Definition set_sig_ws_add_detected (v : bool) (g : Globals) : Globals :=
  let (a, b, c, d, e, f, h, _, j, k, l, m, n) := g in
  mkGlobals a b c d e f h v j k l m n.
Definition set_sig_ws_sub_detected (v : bool) (g : Globals) : Globals :=
  let (a, b, c, d, e, f, h, i, _, k, l, m, n) := g in
  mkGlobals a b c d e f h i v k l m n.
Definition set_timer_ohb_add (v : Z) (g : Globals) : Globals :=
  let (a, b, c, d, e, f, h, i, j, _, l, m, n) := g in
  mkGlobals a b c d e f h i j v l m n.
Definition set_timer_ohb_sub (v : Z) (g : Globals) : Globals :=
  let (a, b, c, d, e, f, h, i, j, k, _, m, n) := g in
  mkGlobals a b c d e f h i j k v m n.
Definition set_timer_ws_add (v : Z) (g : Globals) : Globals :=
  let (a, b, c, d, e, f, h, i, j, k, l, _, n) := g in
  mkGlobals a b c d e f h i j k l v n.
Definition set_timer_ws_sub (v : Z) (g : Globals) : Globals :=
  let (a, b, c, d, e, f, h, i, j, k, l, m, _) := g in
  mkGlobals a b c d e f h i j k l m v.

(** Lines 551-557: overhead buffer add, channel 1. *)
Definition block_ohb_add (cfg : Config) (s1 now_ms : Z) (g : Globals) : Globals :=
  if (s1 =? 1) && negb (sig_ohb_add_detected g) then
    let g := set_sig_ohb_add_detected true g in
    if now_ms - timer_ohb_add g >=? OHB_ADD_DELAY_MS cfg then
      set_sum_ohb (sum_ohb g + 1) g
    else g
  else if negb (s1 =? 1) && sig_ohb_add_detected g then
    let g := set_timer_ohb_add now_ms g in
    set_sig_ohb_add_detected false g
  else g.

(** Lines 562-569: overhead buffer subtract, channel 2. *)
Definition block_ohb_sub (cfg : Config) (s2 now_ms : Z) (g : Globals) : Globals :=
  if (s2 =? 1) && negb (sig_ohb_sub_detected g) then
    let g := set_sig_ohb_sub_detected true g in
    if now_ms - timer_ohb_sub g >=? OHB_SUB_DELAY_MS cfg then
      if sum_ohb g >? 0 then set_sum_ohb (sum_ohb g - 1) g else g
    else g
  else if negb (s2 =? 1) && sig_ohb_sub_detected g then
    let g := set_timer_ohb_sub now_ms g in
    set_sig_ohb_sub_detected false g
  else g.

(** Lines 574-580: wet section add, channel 3. *)
Definition block_ws_add (cfg : Config) (s3 now_ms : Z) (g : Globals) : Globals :=
  if (s3 =? 1) && negb (sig_ws_add_detected g) then
    let g := set_sig_ws_add_detected true g in
    if now_ms - timer_ws_add g >=? WS_ADD_DELAY_MS cfg then
      set_sum_ws (sum_ws g + 1) g
    else g
  else if negb (s3 =? 1) && sig_ws_add_detected g then
    let g := set_timer_ws_add now_ms g in
    set_sig_ws_add_detected false g
  else g.

(** Lines 585-592: wet section subtract, channel 4. *)
Definition block_ws_sub (cfg : Config) (s4 now_ms : Z) (g : Globals) : Globals :=
  if (s4 =? 1) && negb (sig_ws_sub_detected g) then
    let g := set_sig_ws_sub_detected true g in
    if now_ms - timer_ws_sub g >=? WS_SUB_DELAY_MS cfg then
      if sum_ws g >? 0 then set_sum_ws (sum_ws g - 1) g else g
    else g
  else if negb (s4 =? 1) && sig_ws_sub_detected g then
    let g := set_timer_ws_sub now_ms g in
    set_sig_ws_sub_detected false g
  else g.

(** Lines 597-618: as in the first script, and the graph gets a point when
    any of the three values changed. *)
Definition update_ui (g : Globals) : Globals * list UiCall :=
  let total := sum_ohb g + sum_ws g in
  let counts_changed := false in
  let '(g, calls, counts_changed) :=
    if negb (total =? prev_total g)
    then (set_prev_total total g, [TotalSetValue total], true)
    else (g, [], counts_changed) in
  let '(g, calls, counts_changed) :=
    if negb (sum_ohb g =? prev_ohb g)
    then (set_prev_ohb (sum_ohb g) g, calls ++ [OhbSetValue (sum_ohb g)], true)
    else (g, calls, counts_changed) in
  let '(g, calls, counts_changed) :=
    if negb (sum_ws g =? prev_ws g)
    then (set_prev_ws (sum_ws g) g, calls ++ [WsSetValue (sum_ws g)], true)
    else (g, calls, counts_changed) in
  let calls :=
    if counts_changed
    then calls ++ [GraphUpdateSeries (sum_ohb g) (sum_ws g)]
    else calls in
  (g, calls).

Definition debounce_all (cfg : Config) (s : Samples) (now_ms : Z) (g : Globals)
  : Globals :=
  let g := block_ohb_add cfg (s1 s) now_ms g in
  let g := block_ohb_sub cfg (s2 s) now_ms g in
  let g := block_ws_add cfg (s3 s) now_ms g in
  let g := block_ws_sub cfg (s4 s) now_ms g in
  g.

(** Lines 517-621. *)
Definition read_inputs_and_update
    (cfg : Config) (rel : Hardware) (now_ms : Z) (g : Globals) : Outcome Globals :=
  match read_inputs rel with
  | None =>
      (* hardware read failed; retry after a short delay *)
      mkOutcome g [] (Z.max 200 (POLL_INTERVAL_MS cfg))
  | Some s =>
      let g := debounce_all cfg s now_ms g in
      let '(g, calls) := update_ui g in
      mkOutcome g calls (POLL_INTERVAL_MS cfg)
  end.

(** The block of one sensor on its own flag and timer (lines 551-557), with
    the flag telling whether the counting branch was entered. *)
Definition process_sample (delay raw now_ms : Z) (d : Debounce) : Debounce * bool :=
  if (raw =? 1) && negb (is_held d) then
    (mkDebounce true (last_release_time d),
     now_ms - last_release_time d >=? delay)
  else if negb (raw =? 1) && is_held d then
    (mkDebounce false now_ms, false)
  else (d, false).

Definition view (ch : Channel) (g : Globals) : Debounce :=
  match ch with
  | OHB_ADD => mkDebounce (sig_ohb_add_detected g) (timer_ohb_add g)
  | OHB_SUB => mkDebounce (sig_ohb_sub_detected g) (timer_ohb_sub g)
  | WS_ADD => mkDebounce (sig_ws_add_detected g) (timer_ws_add g)
  | WS_SUB => mkDebounce (sig_ws_sub_detected g) (timer_ws_sub g)
  end.

Definition delay_of (cfg : Config) (ch : Channel) : Z :=
  match ch with
  | OHB_ADD => OHB_ADD_DELAY_MS cfg
  | OHB_SUB => OHB_SUB_DELAY_MS cfg
  | WS_ADD => WS_ADD_DELAY_MS cfg
  | WS_SUB => WS_SUB_DELAY_MS cfg
  end.

Definition emits (cfg : Config) (ch : Channel) (s : Samples) (now_ms : Z)
    (g : Globals) : bool :=
  snd (process_sample (delay_of cfg ch) (sample_of ch s) now_ms (view ch g)).

Definition set_view (ch : Channel) (d : Debounce) (g : Globals) : Globals :=
  match ch with
  | OHB_ADD =>
      set_sig_ohb_add_detected (is_held d) (set_timer_ohb_add (last_release_time d) g)
  | OHB_SUB =>
      set_sig_ohb_sub_detected (is_held d) (set_timer_ohb_sub (last_release_time d) g)
  | WS_ADD =>
      set_sig_ws_add_detected (is_held d) (set_timer_ws_add (last_release_time d) g)
  | WS_SUB =>
      set_sig_ws_sub_detected (is_held d) (set_timer_ws_sub (last_release_time d) g)
  end.

(** The counting branch of each block: lines 554, 565-566, 577, 588-589. *)
Definition count_event (ch : Channel) (g : Globals) : Globals :=
  match ch with
  | OHB_ADD => set_sum_ohb (sum_ohb g + 1) g
  | OHB_SUB => if sum_ohb g >? 0 then set_sum_ohb (sum_ohb g - 1) g else g
  | WS_ADD => set_sum_ws (sum_ws g + 1) g
  | WS_SUB => if sum_ws g >? 0 then set_sum_ws (sum_ws g - 1) g else g
  end.

Definition block (ch : Channel) (cfg : Config) (s : Samples) (now_ms : Z)
  : Globals -> Globals :=
  match ch with
  | OHB_ADD => block_ohb_add cfg (s1 s) now_ms
  | OHB_SUB => block_ohb_sub cfg (s2 s) now_ms
  | WS_ADD => block_ws_add cfg (s3 s) now_ms
  | WS_SUB => block_ws_sub cfg (s4 s) now_ms
  end.

Definition channel_step (cfg : Config) (ch : Channel) (s : Samples) (now_ms : Z)
    (g : Globals) : Globals :=
  let '(d, ev) :=
    process_sample (delay_of cfg ch) (sample_of ch s) now_ms (view ch g) in
  let g := set_view ch d g in
  if ev then count_event ch g else g.

Fixpoint run_channel (delay : Z) (samples : list (Z * Z)) (d : Debounce)
  : Debounce * list bool :=
  match samples with
  | [] => (d, [])
  | (raw, now_ms) :: rest =>
      let '(d1, ev) := process_sample delay raw now_ms d in
      let '(d2, evs) := run_channel delay rest d1 in
      (d2, ev :: evs)
  end.

End TestWsbc.

(** ** The two scripts side by side *)

(** The second script configured with the first one's single delay. *)
Definition uniform (cfg : Wsbc.Config) : TestWsbc.Config :=
  TestWsbc.mkConfig
    (Wsbc.SENSOR_DELAY cfg) (Wsbc.SENSOR_DELAY cfg)
    (Wsbc.SENSOR_DELAY cfg) (Wsbc.SENSOR_DELAY cfg)
    (Wsbc.POLL_INTERVAL_MS cfg).

(** The globals the two scripts have in common (the first one also declares
    [count_ohb] and [count_ws], which its callback never touches). *)
Definition common (g : Wsbc.Globals) : TestWsbc.Globals :=
  TestWsbc.mkGlobals
    (Wsbc.sum_ohb g) (Wsbc.sum_ws g)
    (Wsbc.prev_total g) (Wsbc.prev_ohb g) (Wsbc.prev_ws g)
    (Wsbc.sig_ohb_add_detected g) (Wsbc.sig_ohb_sub_detected g)
    (Wsbc.sig_ws_add_detected g) (Wsbc.sig_ws_sub_detected g)
    (Wsbc.timer_ohb_add g) (Wsbc.timer_ohb_sub g)
    (Wsbc.timer_ws_add g) (Wsbc.timer_ws_sub g).

(** What the second script adds to the display calls of the first: a point
    on the graph, after the [set_value] calls, when there were any. *)
Definition with_graph (calls : list UiCall) (ohb ws : Z) : list UiCall :=
  match calls with
  | [] => []
  | _ => calls ++ [GraphUpdateSeries ohb ws]
  end.

(** ** Vocabulary of the statements *)

(** The last level seen on a channel along a run: a tick whose read fails
    contributes nothing. *)
Fixpoint last_sample (ch : Channel) (ticks : list Tick) (seen : option Z)
  : option Z :=
  match ticks with
  | [] => seen
  | t :: rest =>
      last_sample ch rest
        (match sampled ch t with Some v => Some v | None => seen end)
  end.

(** The flag agrees with the last level seen ([None]: nothing seen yet). *)
Definition held_matches (seen : option Z) (d : Debounce) : Prop :=
  is_held d = match seen with Some v => v =? 1 | None => false end.

(** Every level a tick reads on the channel is 1 (a tick whose read fails
    reads none). *)
Definition reads_active (ch : Channel) (t : Tick) : Prop :=
  forall v, sampled ch t = Some v -> v = 1.

(** A count that goes up by one on an event, and one that goes down by one
    on an event unless it is not above zero. *)
Definition bump (e : bool) (x : Z) : Z := if e then x + 1 else x.
Definition drop (e : bool) (x : Z) : Z :=
  if e && (x >? 0) then x - 1 else x.

(** The [set_value] calls due when the three values [total], [ohb], [ws]
    are compared with the remembered [pt], [po], [pw]: one per value that
    differs, total first. *)
Definition calls_for (pt po pw total ohb ws : Z) : list UiCall :=
  (if total =? pt then [] else [TotalSetValue total]) ++
  (if ohb =? po then [] else [OhbSetValue ohb]) ++
  (if ws =? pw then [] else [WsSetValue ws]).

(** ** Sample inputs *)

(** The hardware answering [s] without failing. *)
Definition hw_of (s : Samples) : Hardware :=
  fun ch =>
    if ch =? CHANNEL_OHB_ADD then Some (s1 s)
    else if ch =? CHANNEL_OHB_SUB then Some (s2 s)
    else if ch =? CHANNEL_WS_ADD then Some (s3 s)
    else Some (s4 s).

(** A HAT that does not answer. *)
Definition hw_down : Hardware := fun _ => None.

(** The HAT answering on the first two lines and raising on the third. *)
Definition hw_fails_third : Hardware :=
  fun ch => if ch =? CHANNEL_WS_ADD then None else Some 1.

(** Sample ticks: the overhead buffer add sensor high and the others low;
    both overhead buffer sensors high; both wet section sensors high; all
    low. *)
Definition only_ohb_add : Samples := mkSamples 1 0 0 0.
Definition both_ohb : Samples := mkSamples 1 1 0 0.
Definition both_ws : Samples := mkSamples 0 0 1 1.
Definition all_low : Samples := mkSamples 0 0 0 0.

Definition tick_at (s : Samples) (now : Z) : Tick := mkTick (hw_of s) now.

(** The globals after the overhead buffer add sensor went high at 2000 ms
    and low again at 2020 ms. *)
Definition after_release : Wsbc.Globals :=
  Wsbc.run Wsbc.default_config
    [tick_at only_ohb_add 2000; tick_at all_low 2020] Wsbc.initial.

(** ** The cards *)

(** *** [pick_color_from_thresholds]

    Lines 71-80 of the first script, 132-141 of the second: the same
    text. *)

(** One entry of a thresholds table: [(min_value, max_value, color_hex)],
    either bound possibly [None]. *)
Definition Threshold : Type := option Z * option Z * string.

(** The test of the loop: [(mn is None or value >= mn) and (mx is None or
    value <= mx)]. *)
Definition in_band (value : Z) (th : Threshold) : bool :=
  let '(mn, mx, _) := th in
  (match mn with None => true | Some m => value >=? m end) &&
  (match mx with None => true | Some m => value <=? m end).

(** The [for] loop, with its fall-through [return default]. *)
Fixpoint pick_color_loop (value : Z) (thresholds : list Threshold)
    (default : string) : string :=
  match thresholds with
  | [] => default
  | (mn, mx, col) :: rest =>
      if in_band value (mn, mx, col) then col
      else pick_color_loop value rest default
  end.

(** [thresholds] is falsy when it is [None] or the empty list. *)
Definition pick_color_from_thresholds (value : Z)
    (thresholds : option (list Threshold)) (default : string) : string :=
  match thresholds with
  | None | Some [] => default
  | Some ths => pick_color_loop value ths default
  end.

(** The default of the [default] parameter. *)
Definition default_color : string := "#000000"%string.

(** [ProgressCard]: [self.thresholds = thresholds or []] in the constructor,
    and the colour of the fill in [set_value] (line 189, resp. 250). *)
Definition card_thresholds (thresholds : option (list Threshold))
  : list Threshold :=
  match thresholds with
  | None | Some [] => []
  | Some ths => ths
  end.

Definition fill_color (thresholds : option (list Threshold)) (new_value : Z)
  : string :=
  pick_color_from_thresholds new_value (Some (card_thresholds thresholds))
    "#2ecc71"%string.

Definition red : string := "#e74c3c"%string.
Definition yellow : string := "#f1c40f"%string.
Definition green : string := "#2ecc71"%string.
Definition track_grey : string := "#e9e9e9"%string.

(** First script, lines 19-23. *)
Definition OHB_THRESHOLDS_1 : list Threshold :=
  [(None, Some 2, red); (Some 3, Some 5, yellow); (Some 6, None, green)].

(** Second script, lines 75-79. *)
Definition OHB_THRESHOLDS_2 : list Threshold :=
  [(None, Some 75, red); (Some 76, Some 5, yellow); (Some 6, None, green)].

(** Both scripts (lines 24-28, resp. 80-84): the three bands of the wet
    section card carry the colour of the track. *)
Definition WS_THRESHOLDS : list Threshold :=
  [(None, Some 1, track_grey); (Some 2, Some 4, track_grey);
   (Some 5, None, track_grey)].

(** *** [rounded_rect]

    Lines 82-100 (first script): the coordinate list handed to
    [canvas.create_polygon], for integer coordinates as the card
    constructors pass them. *)
Definition rounded_rect_points (x1 y1 x2 y2 r : Z) : list Z :=
  [x1 + r; y1;
   x2 - r; y1;
   x2; y1;
   x2; y1 + r;
   x2; y2 - r;
   x2; y2;
   x2 - r; y2;
   x1 + r; y2;
   x1; y2;
   x1; y2 - r;
   x1; y1 + r;
   x1; y1].

(** The flat list [x, y, x, y, ...] read as vertices; an odd trailing number
    is no vertex. *)
Fixpoint vertices (coords : list Z) : list (Z * Z) :=
  match coords with
  | x :: y :: rest => (x, y) :: vertices rest
  | _ => []
  end.

(** A vertex in the rectangle from [(x1, y1)] to [(x2, y2)]. *)
Definition in_box (x1 y1 x2 y2 : Z) (p : Z * Z) : Prop :=
  x1 <= fst p <= x2 /\ y1 <= snd p <= y2.

(** *** What the three cards show

    Each card is created showing the text ["0"] (lines 122 and 157 of the
    first script) and [set_value] replaces the text by the new value (lines
    129 and 182). *)
Record Shown := mkShown { shown_total : Z; shown_ohb : Z; shown_ws : Z }.

Definition shown_at_start : Shown := mkShown 0 0 0.

Definition show (sh : Shown) (c : UiCall) : Shown :=
  match c with
  | TotalSetValue v => mkShown v (shown_ohb sh) (shown_ws sh)
  | OhbSetValue v => mkShown (shown_total sh) v (shown_ws sh)
  | WsSetValue v => mkShown (shown_total sh) (shown_ohb sh) v
  | GraphUpdateSeries _ _ => sh
  end.

Definition show_all (sh : Shown) (calls : list UiCall) : Shown :=
  fold_left show calls sh.

(** ** The trend graph of the second script *)

Module TrendGraph.

(** The attributes of [TrendGraph] that [update_series] works on (lines
    282-286).  [T] is the type of the timestamps, floats in the script; the
    code below only stores them. *)
Record State (T : Type) := mkState
  { max_points : Z;
    history_times : list T; history_ohb : list Z; history_ws : list Z }.
Arguments mkState {T}.
Arguments max_points {T}.
Arguments history_times {T}.
Arguments history_ohb {T}.
Arguments history_ws {T}.

(** The constructor: 240 points at most, nothing recorded. *)
Definition create (T : Type) : State T := mkState 240 [] [] [].

(** [list.pop(0)], which raises on the empty list, for its effect on the
    list. *)
Definition pop0 {A : Type} (l : list A) : option (list A) :=
  match l with
  | [] => None
  | _ :: rest => Some rest
  end.

(** Lines 354-358, the [while] loop: each round pops the head of
    [history_times], so the recursion is on that list.  [None]: one of the
    three [pop(0)] raised. *)
Fixpoint limit_loop {T : Type} (max_points : Z) (times : list T)
    (ohb ws : list Z) : option (list T * list Z * list Z) :=
  match times with
  | [] =>
      if Z.of_nat (List.length times) >? max_points then None
      else Some (times, ohb, ws)
  | _ :: times' =>
      if Z.of_nat (List.length times) >? max_points then
        ohb' <- pop0 ohb ;;
        ws' <- pop0 ws ;;
        limit_loop max_points times' ohb' ws'
      else Some (times, ohb, ws)
  end.

Definition _limit_history {T : Type} (g : State T) : option (State T) :=
  r <- limit_loop (max_points g) (history_times g) (history_ohb g)
         (history_ws g) ;;
  let '(times, ohb, ws) := r in
  Some (mkState (max_points g) times ohb ws).

(** [max(l)] on a list of integers, which raises on the empty list. *)
Definition list_max (l : list Z) : option Z :=
  match l with
  | [] => None
  | x :: rest => Some (fold_left Z.max rest x)
  end.

(** What [_redraw] did: it returned before drawing because there are fewer
    than two points, or it drew with the Y scale [max_val] (shown as
    ["Max: max_val"]). *)
Inductive Redrawn := Cleared | Drawn (max_val : Z).

(** Lines 374-461.  The guard and the Y scale (lines 382-390) are integer
    code and are spelled out.  The drawing that follows (lines 391-461: the
    Y ticks, the time scale, the hour ticks with their [time.localtime]
    labels, the two lines) is floating-point work on the canvas; it is the
    parameter [draw], given the histories and the scale, and it may raise
    ([None]), as [time.localtime] does on a timestamp out of its range.
    [None] as a result: one of the two [max] raised, or the drawing did. *)
Definition _redraw {T : Type} (draw : State T -> Z -> option unit)
    (g : State T) : option Redrawn :=
  if Z.of_nat (List.length (history_times g)) <? 2 then Some Cleared
  else
    a <- list_max (history_ohb g) ;;
    b <- list_max (history_ws g) ;;
    let max_val := Z.max (Z.max a b) 1 in
    drawn <- draw g max_val ;;
    Some (Drawn max_val).

(** Lines 360-372.  [clock] is what [time.time()] would answer; it is used
    only when no [timestamp] is given.  [None]: [_limit_history] or
    [_redraw] raised. *)
Definition update_series {T : Type} (draw : State T -> Z -> option unit)
    (clock : T) (g : State T) (ohb ws : Z) (timestamp : option T)
  : option (State T * Redrawn) :=
  let timestamp := match timestamp with None => clock | Some t => t end in
  let g := mkState (max_points g)
             (history_times g ++ [timestamp])
             (history_ohb g ++ [ohb])
             (history_ws g ++ [ws]) in
  g <- _limit_history g ;;
  r <- _redraw draw g ;;
  Some (g, r).

(** A drawing part that does not raise. *)
Definition draws_fine {T : Type} (draw : State T -> Z -> option unit) : Prop :=
  forall g max_val, draw g max_val = Some tt.

(** The three histories have one entry per recorded point. *)
Definition aligned {T : Type} (g : State T) : Prop :=
  List.length (history_ohb g) = List.length (history_times g) /\
  List.length (history_ws g) = List.length (history_times g).

(** The last [n] elements of a list (all of it when it is shorter, none
    when [n] is not positive). *)
Definition keep_last {A : Type} (n : Z) (l : list A) : list A :=
  skipn (List.length l - Z.to_nat n) l.

(** Recording a list of points [(timestamp, ohb, ws)] one after the other. *)
Fixpoint record_all {T : Type} (draw : State T -> Z -> option unit)
    (g : State T) (points : list (T * Z * Z)) : option (State T) :=
  match points with
  | [] => Some g
  | (t, ohb, ws) :: rest =>
      r <- update_series draw t g ohb ws (Some t) ;;
      record_all draw (fst r) rest
  end.

End TrendGraph.

(** ** The second script with its graph *)

Module TestWsbcRun.
Import TestWsbc.

Definition step (cfg : Config) (t : Tick) (g : Globals) : Globals :=
  globals (read_inputs_and_update cfg (rel t) (now_ms t) g).

Fixpoint run (cfg : Config) (ticks : list Tick) (g : Globals) : Globals :=
  match ticks with
  | [] => g
  | t :: rest => run cfg rest (step cfg t g)
  end.

Definition tick_event (cfg : Config) (ch : Channel) (t : Tick) (g : Globals)
  : bool :=
  match read_inputs (rel t) with
  | None => false
  | Some s => emits cfg ch s (now_ms t) g
  end.

Fixpoint events_of (cfg : Config) (ch : Channel) (ticks : list Tick)
    (g : Globals) : list bool :=
  match ticks with
  | [] => []
  | t :: rest => tick_event cfg ch t g :: events_of cfg ch rest (step cfg t g)
  end.

(** The globals of the script together with its [graph_panel]. *)
Record World (T : Type) := mkWorld
  { w_globals : Globals; w_graph : TrendGraph.State T }.
Arguments mkWorld {T}.
Arguments w_globals {T}.
Arguments w_graph {T}.

Definition world_at_start (T : Type) : World T :=
  mkWorld initial (TrendGraph.create T).

(** The [graph_panel.update_series] calls of a tick, carried out on the
    graph with [now_ts = time.time()] as timestamp (lines 616-618); [draw]
    is the drawing part of [_redraw]. *)
Fixpoint feed_graph {T : Type} (draw : TrendGraph.State T -> Z -> option unit)
    (now_ts : T) (calls : list UiCall) (gr : TrendGraph.State T)
  : option (TrendGraph.State T) :=
  match calls with
  | [] => Some gr
  | GraphUpdateSeries ohb ws :: rest =>
      r <- TrendGraph.update_series draw now_ts gr ohb ws (Some now_ts) ;;
      feed_graph draw now_ts rest (fst r)
  | _ :: rest => feed_graph draw now_ts rest gr
  end.

(** One firing of the timer, graph included.  [None]: the graph raised, and
    the callback was left before rescheduling itself. *)
Definition world_step {T : Type} (draw : TrendGraph.State T -> Z -> option unit)
    (cfg : Config) (t : Tick) (now_ts : T) (w : World T) : option (World T) :=
  let o := read_inputs_and_update cfg (rel t) (now_ms t) (w_globals w) in
  gr <- feed_graph draw now_ts (ui o) (w_graph w) ;;
  Some (mkWorld (globals o) gr).

Fixpoint world_run {T : Type} (draw : TrendGraph.State T -> Z -> option unit)
    (cfg : Config) (ticks : list (Tick * T)) (w : World T)
  : option (World T) :=
  match ticks with
  | [] => Some w
  | (t, now_ts) :: rest =>
      w' <- world_step draw cfg t now_ts w ;;
      world_run draw cfg rest w'
  end.

End TestWsbcRun.

(** ** More vocabulary *)

(** *** What a tick counts, read off the sums

    The sums a tick leaves when the four sensors count as the flags [e]
    say: the add sensor of a sum raises it by one, then its subtract sensor
    lowers it by one unless it is not above zero. *)
Definition tick_sums (e : Channel -> bool) (ohb ws : Z) : Z * Z :=
  (drop (e OHB_SUB) (bump (e OHB_ADD) ohb),
   drop (e WS_SUB) (bump (e WS_ADD) ws)).

Definition channel_eqb (a b : Channel) : bool :=
  match a, b with
  | OHB_ADD, OHB_ADD | OHB_SUB, OHB_SUB | WS_ADD, WS_ADD | WS_SUB, WS_SUB =>
      true
  | _, _ => false
  end.

(** The flags [e], with the flag of [ch] set to [b]. *)
Definition override (ch : Channel) (b : bool) (e : Channel -> bool)
  : Channel -> bool :=
  fun c => if channel_eqb c ch then b else e c.

(** On tick [t] of the first script the sums go as they do when sensor [ch]
    counts ([b = true]) or does not count ([b = false]), the other three
    sensors counting as they do. *)
Definition counts_as (cfg : Wsbc.Config) (ch : Channel) (b : bool) (t : Tick)
    (g : Wsbc.Globals) : Prop :=
  (Wsbc.sum_ohb (Wsbc.step cfg t g), Wsbc.sum_ws (Wsbc.step cfg t g)) =
  tick_sums (override ch b (fun c => Wsbc.tick_event cfg c t g))
    (Wsbc.sum_ohb g) (Wsbc.sum_ws g).

(** The same along a run, one flag per tick. *)
Fixpoint counted_as (cfg : Wsbc.Config) (ch : Channel) (ticks : list Tick)
    (bs : list bool) (g : Wsbc.Globals) : Prop :=
  match ticks, bs with
  | [], [] => True
  | t :: ticks', b :: bs' =>
      counts_as cfg ch b t g /\ counted_as cfg ch ticks' bs' (Wsbc.step cfg t g)
  | _, _ => False
  end.

(** The same for one tick of the second script. *)
Definition counts_as2 (cfg : TestWsbc.Config) (ch : Channel) (b : bool)
    (t : Tick) (g : TestWsbc.Globals) : Prop :=
  (TestWsbc.sum_ohb (TestWsbcRun.step cfg t g),
   TestWsbc.sum_ws (TestWsbcRun.step cfg t g)) =
  tick_sums (override ch b (fun c => TestWsbcRun.tick_event cfg c t g))
    (TestWsbc.sum_ohb g) (TestWsbc.sum_ws g).

(** Every level a tick reads on the channel is other than 1. *)
Definition reads_inactive (ch : Channel) (t : Tick) : Prop :=
  forall v, sampled ch t = Some v -> v <> 1.

(** How many flags of a list are set. *)
Definition count_true (l : list bool) : Z :=
  Z.of_nat (List.length (filter (fun b => b) l)).

(** The display calls of the first script along a run, in order. *)
Fixpoint run_calls (cfg : Wsbc.Config) (ticks : list Tick) (g : Wsbc.Globals)
  : list UiCall :=
  match ticks with
  | [] => []
  | t :: rest =>
      ui (Wsbc.read_inputs_and_update cfg (rel t) (now_ms t) g) ++
      run_calls cfg rest (Wsbc.step cfg t g)
  end.

(** What one tick reads on a channel, and when; nothing when its read
    fails. *)
Definition seen_by (ch : Channel) (t : Tick) : option (Z * Z) :=
  match sampled ch t with
  | Some v => Some (v, now_ms t)
  | None => None
  end.

(** The display is in step with the globals: the cards show the three
    values, the sums are not negative, and the remembered values are either
    all still -1 or the three values. *)
Definition in_step (g : Wsbc.Globals) (sh : Shown) : Prop :=
  sh = mkShown (Wsbc.sum_ohb g + Wsbc.sum_ws g) (Wsbc.sum_ohb g) (Wsbc.sum_ws g) /\
  0 <= Wsbc.sum_ohb g /\ 0 <= Wsbc.sum_ws g /\
  ((Wsbc.prev_total g = -1 /\ Wsbc.prev_ohb g = -1 /\ Wsbc.prev_ws g = -1) \/
   (Wsbc.prev_total g = Wsbc.sum_ohb g + Wsbc.sum_ws g /\
    Wsbc.prev_ohb g = Wsbc.sum_ohb g /\ Wsbc.prev_ws g = Wsbc.sum_ws g)).

(** The graph is in step with the globals of the second script: its
    histories have one entry per point, at most 240 of them, none negative;
    the sums are not negative; and either nothing was reported yet (no
    point, the remembered values still -1) or the newest point is the
    current pair of sums and the remembered values are the current ones. *)
Definition world_ok {T : Type} (w : TestWsbcRun.World T) : Prop :=
  let g := TestWsbcRun.w_globals w in
  let gr := TestWsbcRun.w_graph w in
  TrendGraph.aligned gr /\
  TrendGraph.max_points gr = 240 /\
  Z.of_nat (List.length (TrendGraph.history_times gr)) <= 240 /\
  Forall (fun v => 0 <= v) (TrendGraph.history_ohb gr) /\
  Forall (fun v => 0 <= v) (TrendGraph.history_ws gr) /\
  0 <= TestWsbc.sum_ohb g /\ 0 <= TestWsbc.sum_ws g /\
  ((TrendGraph.history_times gr = [] /\
    TestWsbc.prev_total g = -1 /\ TestWsbc.prev_ohb g = -1 /\
    TestWsbc.prev_ws g = -1) \/
   ((exists older, TrendGraph.history_ohb gr = older ++ [TestWsbc.sum_ohb g]) /\
    (exists older, TrendGraph.history_ws gr = older ++ [TestWsbc.sum_ws g]) /\
    TestWsbc.prev_total g = TestWsbc.sum_ohb g + TestWsbc.sum_ws g /\
    TestWsbc.prev_ohb g = TestWsbc.sum_ohb g /\
    TestWsbc.prev_ws g = TestWsbc.sum_ws g)).

(** [MockSm4Rel4In.get_in] of the second script (lines 53-56): every line
    reads 0, and the call does not raise. *)
Definition mock_get_in : Hardware := fun _ => Some 0.

(** The globals of the second script once zeros were reported. *)
Definition zeros_reported : TestWsbc.Globals :=
  TestWsbc.mkGlobals 0 0 0 0 0 false false false false 0 0 0 0.

(** The globals of the first script after the wet section add sensor went
    high at 3000 ms. *)
Definition after_ws_add : Wsbc.Globals :=
  Wsbc.step Wsbc.default_config (tick_at (mkSamples 0 0 1 0) 3000) Wsbc.initial.

(** * Properties of the first script *)

(** Case analysis on the tests of a block: the level, the cooldown guard and
    the floor of the sum. *)
Ltac case_levels :=
  repeat match goal with
    | |- context [?x =? 1] => destruct (x =? 1) eqn:?
    | |- context [?x >=? ?y] => destruct (x >=? y) eqn:?
    | |- context [?x >? 0] => destruct (x >? 0) eqn:?
    end; simpl.

Module WsbcFacts.
Import Wsbc.

Ltac unfold_step :=
  unfold channel_step, emits, process_sample, delay_of, count_event, view,
    set_view; simpl.

(** ** Reads *)

Lemma read_inputs_fails (hw : Hardware) (ch : Channel) :
  hw (channel_id ch) = None -> read_inputs hw = None.
Proof.
  unfold read_inputs, bind_read. intros H.
  destruct ch; simpl in H;
    destruct (hw CHANNEL_OHB_ADD); try congruence;
    destruct (hw CHANNEL_OHB_SUB); try congruence;
    destruct (hw CHANNEL_WS_ADD); try congruence;
    destruct (hw CHANNEL_WS_SUB); congruence.
Qed.

Lemma read_inputs_hw_of (s : Samples) : read_inputs (hw_of s) = Some s.
Proof. destruct s; reflexivity. Qed.

Lemma reads_active_tick_at (ch : Channel) (s : Samples) (now : Z) :
  sample_of ch s = 1 -> reads_active ch (tick_at s now).
Proof.
  intros H v. unfold sampled.
  change (rel (tick_at s now)) with (hw_of s).
  rewrite read_inputs_hw_of; simpl. congruence.
Qed.

Lemma reads_active_failed (ch : Channel) (now : Z) :
  reads_active ch (mkTick hw_down now).
Proof. intros v. discriminate. Qed.

(** ** The debouncer of one sensor *)

Lemma geb_false_lt (x y : Z) : x < y -> (x >=? y) = false.
Proof. intros H. rewrite Z.geb_leb. apply Z.leb_gt. exact H. Qed.

Lemma geb_true_le (x y : Z) : y <= x -> (x >=? y) = true.
Proof. intros H. rewrite Z.geb_leb. apply Z.leb_le. exact H. Qed.

Lemma held_after_sample (delay v now : Z) (d : Debounce) :
  is_held (fst (process_sample delay v now d)) = (v =? 1).
Proof.
  unfold process_sample. destruct d as [h r]; simpl.
  destruct (v =? 1), h; reflexivity.
Qed.

Lemma process_sample_held (delay now : Z) (d : Debounce) :
  is_held d = true -> process_sample delay 1 now d = (d, false).
Proof.
  destruct d as [h r]; simpl. intros ->. reflexivity.
Qed.

Lemma process_sample_fall (delay v now : Z) (d : Debounce) :
  is_held d = true -> v <> 1 ->
  process_sample delay v now d = (mkDebounce false now, false).
Proof.
  intros Hh Hv. unfold process_sample. rewrite Hh.
  destruct (v =? 1) eqn:E; [apply Z.eqb_eq in E; contradiction|].
  reflexivity.
Qed.

Lemma process_sample_idle (delay v now : Z) (d : Debounce) :
  is_held d = false -> v <> 1 -> process_sample delay v now d = (d, false).
Proof.
  intros Hh Hv. unfold process_sample. rewrite Hh.
  destruct (v =? 1) eqn:E; [apply Z.eqb_eq in E; contradiction|].
  reflexivity.
Qed.

Lemma bump_nonneg (e : bool) (x : Z) : 0 <= x -> 0 <= bump e x.
Proof. unfold bump. destruct e; lia. Qed.

Lemma drop_nonneg (e : bool) (x : Z) : 0 <= x -> 0 <= drop e x.
Proof.
  unfold drop. destruct e; simpl; [|lia].
  destruct (x >? 0) eqn:E; [|lia]. apply Z.gtb_lt in E. lia.
Qed.

(** ** The display *)

Lemma view_update_ui (ch : Channel) (g : Globals) :
  view ch (fst (update_ui g)) = view ch g.
Proof.
  destruct g as [c1 c2 so sw pt po pw f1 f2 f3 f4 t1 t2 t3 t4].
  unfold update_ui; simpl.
  destruct (so + sw =? pt); simpl; destruct (so =? po); simpl;
    destruct (sw =? pw); simpl; destruct ch; reflexivity.
Qed.

Lemma sums_update_ui (g : Globals) :
  sum_ohb (fst (update_ui g)) = sum_ohb g /\
  sum_ws (fst (update_ui g)) = sum_ws g.
Proof.
  destruct g as [c1 c2 so sw pt po pw f1 f2 f3 f4 t1 t2 t3 t4].
  unfold update_ui; simpl.
  destruct (so + sw =? pt); simpl; destruct (so =? po); simpl;
    destruct (sw =? pw); simpl; split; reflexivity.
Qed.

Lemma update_ui_calls (g : Globals) :
  snd (update_ui g) =
  calls_for (prev_total g) (prev_ohb g) (prev_ws g)
    (sum_ohb g + sum_ws g) (sum_ohb g) (sum_ws g).
Proof.
  destruct g as [c1 c2 so sw pt po pw f1 f2 f3 f4 t1 t2 t3 t4].
  unfold update_ui, calls_for; simpl.
  destruct (so + sw =? pt); simpl; destruct (so =? po); simpl;
    destruct (sw =? pw); reflexivity.
Qed.

Lemma update_ui_prev (g : Globals) :
  prev_total (fst (update_ui g)) = sum_ohb g + sum_ws g /\
  prev_ohb (fst (update_ui g)) = sum_ohb g /\
  prev_ws (fst (update_ui g)) = sum_ws g.
Proof.
  destruct g as [c1 c2 so sw pt po pw f1 f2 f3 f4 t1 t2 t3 t4].
  unfold update_ui; simpl.
  destruct (so + sw =? pt) eqn:Et; simpl; destruct (so =? po) eqn:Eo; simpl;
    destruct (sw =? pw) eqn:Ew; simpl;
    try apply Z.eqb_eq in Et; try apply Z.eqb_eq in Eo;
    try apply Z.eqb_eq in Ew; repeat split; congruence.
Qed.

Lemma calls_for_same (total ohb ws : Z) :
  calls_for total ohb ws total ohb ws = [].
Proof.
  unfold calls_for. rewrite !Z.eqb_refl. reflexivity.
Qed.

Lemma set_view_view (ch : Channel) (g : Globals) :
  set_view ch (view ch g) g = g.
Proof. destruct g, ch; reflexivity. Qed.

(** ** One tick under a fixed configuration *)

Section Tick.

Variable cfg : Config.

(** The four blocks are one debouncer, instantiated four times. *)

Lemma block_channel_step (ch : Channel) (s : Samples)
    (now : Z) (g : Globals) :
  block ch cfg s now g = channel_step cfg ch s now g.
Proof.
  destruct g as [c1 c2 so sw pt po pw f1 f2 f3 f4 t1 t2 t3 t4], s as [a b c d].
  destruct ch; unfold block, channel_step, process_sample, delay_of; simpl;
    unfold block_ohb_add, block_ohb_sub, block_ws_add, block_ws_sub; simpl.
  - destruct (a =? 1), f1; simpl; case_levels; reflexivity.
  - destruct (b =? 1), f2; simpl; case_levels; reflexivity.
  - destruct (c =? 1), f3; simpl; case_levels; reflexivity.
  - destruct (d =? 1), f4; simpl; case_levels; reflexivity.
Qed.

Lemma debounce_all_steps (s : Samples) (now : Z) (g : Globals) :
  debounce_all cfg s now g =
  channel_step cfg WS_SUB s now
    (channel_step cfg WS_ADD s now
       (channel_step cfg OHB_SUB s now
          (channel_step cfg OHB_ADD s now g))).
Proof.
  rewrite <- !block_channel_step. reflexivity.
Qed.

(** What a block does to the flag and timer of each sensor. *)

Lemma view_channel_step_same (ch : Channel) (s : Samples)
    (now : Z) (g : Globals) :
  view ch (channel_step cfg ch s now g) =
  fst (process_sample (delay_of cfg ch) (sample_of ch s) now (view ch g)).
Proof.
  destruct g as [c1 c2 so sw pt po pw f1 f2 f3 f4 t1 t2 t3 t4], s as [a b c d].
  destruct ch; unfold_step.
  - destruct (a =? 1), f1; simpl; case_levels; reflexivity.
  - destruct (b =? 1), f2; simpl; case_levels; reflexivity.
  - destruct (c =? 1), f3; simpl; case_levels; reflexivity.
  - destruct (d =? 1), f4; simpl; case_levels; reflexivity.
Qed.

Lemma view_channel_step_other (ch ch' : Channel) (s : Samples)
    (now : Z) (g : Globals) :
  ch <> ch' -> view ch' (channel_step cfg ch s now g) = view ch' g.
Proof.
  intros Hne.
  destruct g as [c1 c2 so sw pt po pw f1 f2 f3 f4 t1 t2 t3 t4], s as [a b c d].
  destruct ch, ch'; try congruence; unfold_step.
  - destruct (a =? 1), f1; simpl; case_levels; reflexivity.
  - destruct (a =? 1), f1; simpl; case_levels; reflexivity.
  - destruct (a =? 1), f1; simpl; case_levels; reflexivity.
  - destruct (b =? 1), f2; simpl; case_levels; reflexivity.
  - destruct (b =? 1), f2; simpl; case_levels; reflexivity.
  - destruct (b =? 1), f2; simpl; case_levels; reflexivity.
  - destruct (c =? 1), f3; simpl; case_levels; reflexivity.
  - destruct (c =? 1), f3; simpl; case_levels; reflexivity.
  - destruct (c =? 1), f3; simpl; case_levels; reflexivity.
  - destruct (d =? 1), f4; simpl; case_levels; reflexivity.
  - destruct (d =? 1), f4; simpl; case_levels; reflexivity.
  - destruct (d =? 1), f4; simpl; case_levels; reflexivity.
Qed.

Lemma view_debounce_all (ch : Channel) (s : Samples)
    (now : Z) (g : Globals) :
  view ch (debounce_all cfg s now g) =
  fst (process_sample (delay_of cfg ch) (sample_of ch s) now (view ch g)).
Proof.
  rewrite debounce_all_steps.
  destruct ch;
    repeat first
      [ rewrite view_channel_step_other by discriminate
      | rewrite view_channel_step_same ];
    reflexivity.
Qed.

(** What a block does to the two sums and to the remembered values. *)

Lemma sum_ohb_channel_step (ch : Channel) (s : Samples)
    (now : Z) (g : Globals) :
  sum_ohb (channel_step cfg ch s now g) =
  match ch with
  | OHB_ADD => bump (emits cfg ch s now g) (sum_ohb g)
  | OHB_SUB => drop (emits cfg ch s now g) (sum_ohb g)
  | _ => sum_ohb g
  end.
Proof.
  destruct g as [c1 c2 so sw pt po pw f1 f2 f3 f4 t1 t2 t3 t4], s as [a b c d].
  destruct ch; unfold bump, drop; unfold_step.
  - destruct (a =? 1), f1; simpl; case_levels; reflexivity.
  - destruct (b =? 1), f2; simpl; case_levels; reflexivity.
  - destruct (c =? 1), f3; simpl; case_levels; reflexivity.
  - destruct (d =? 1), f4; simpl; case_levels; reflexivity.
Qed.

Lemma sum_ws_channel_step (ch : Channel) (s : Samples)
    (now : Z) (g : Globals) :
  sum_ws (channel_step cfg ch s now g) =
  match ch with
  | WS_ADD => bump (emits cfg ch s now g) (sum_ws g)
  | WS_SUB => drop (emits cfg ch s now g) (sum_ws g)
  | _ => sum_ws g
  end.
Proof.
  destruct g as [c1 c2 so sw pt po pw f1 f2 f3 f4 t1 t2 t3 t4], s as [a b c d].
  destruct ch; unfold bump, drop; unfold_step.
  - destruct (a =? 1), f1; simpl; case_levels; reflexivity.
  - destruct (b =? 1), f2; simpl; case_levels; reflexivity.
  - destruct (c =? 1), f3; simpl; case_levels; reflexivity.
  - destruct (d =? 1), f4; simpl; case_levels; reflexivity.
Qed.

Lemma emits_channel_step_other (ch ch' : Channel)
    (s : Samples) (now : Z) (g : Globals) :
  ch <> ch' ->
  emits cfg ch' s now (channel_step cfg ch s now g) = emits cfg ch' s now g.
Proof.
  intros Hne. unfold emits. rewrite view_channel_step_other by exact Hne.
  reflexivity.
Qed.

(** The sums after the four blocks: the add channel first, then the
    subtract channel on what the add channel left. *)
Lemma sum_ohb_debounce_all (s : Samples) (now : Z) (g : Globals) :
  sum_ohb (debounce_all cfg s now g) =
  drop (emits cfg OHB_SUB s now g) (bump (emits cfg OHB_ADD s now g) (sum_ohb g)).
Proof.
  rewrite debounce_all_steps, !sum_ohb_channel_step.
  rewrite emits_channel_step_other by discriminate. reflexivity.
Qed.

Lemma sum_ws_debounce_all (s : Samples) (now : Z) (g : Globals) :
  sum_ws (debounce_all cfg s now g) =
  drop (emits cfg WS_SUB s now g) (bump (emits cfg WS_ADD s now g) (sum_ws g)).
Proof.
  rewrite debounce_all_steps, !sum_ws_channel_step.
  rewrite !emits_channel_step_other by discriminate. reflexivity.
Qed.

Lemma prev_channel_step (ch : Channel) (s : Samples) (now : Z)
    (g : Globals) :
  prev_total (channel_step cfg ch s now g) = prev_total g /\
  prev_ohb (channel_step cfg ch s now g) = prev_ohb g /\
  prev_ws (channel_step cfg ch s now g) = prev_ws g.
Proof.
  destruct g as [c1 c2 so sw pt po pw f1 f2 f3 f4 t1 t2 t3 t4], s as [a b c d].
  destruct ch; unfold_step.
  - destruct (a =? 1), f1; simpl; case_levels; repeat split; reflexivity.
  - destruct (b =? 1), f2; simpl; case_levels; repeat split; reflexivity.
  - destruct (c =? 1), f3; simpl; case_levels; repeat split; reflexivity.
  - destruct (d =? 1), f4; simpl; case_levels; repeat split; reflexivity.
Qed.

Lemma prev_debounce_all (s : Samples) (now : Z) (g : Globals) :
  prev_total (debounce_all cfg s now g) = prev_total g /\
  prev_ohb (debounce_all cfg s now g) = prev_ohb g /\
  prev_ws (debounce_all cfg s now g) = prev_ws g.
Proof.
  rewrite debounce_all_steps.
  repeat match goal with
    | |- context [prev_total (channel_step ?c ?h ?s ?n ?x)] =>
        destruct (prev_channel_step h s n x) as [-> [-> ->]]
    end.
  repeat split; reflexivity.
Qed.

(** One tick, seen from the globals. *)

Lemma step_failed (t : Tick) (g : Globals) :
  read_inputs (rel t) = None -> step cfg t g = g.
Proof.
  unfold step, read_inputs_and_update. intros ->. reflexivity.
Qed.

Lemma step_read (t : Tick) (s : Samples) (g : Globals) :
  read_inputs (rel t) = Some s ->
  step cfg t g = fst (update_ui (debounce_all cfg s (now_ms t) g)).
Proof.
  unfold step, read_inputs_and_update. intros ->.
  destruct (update_ui _); reflexivity.
Qed.

Lemma view_step (ch : Channel) (t : Tick) (g : Globals) :
  view ch (step cfg t g) =
  match sampled ch t with
  | Some v => fst (process_sample (delay_of cfg ch) v (now_ms t) (view ch g))
  | None => view ch g
  end.
Proof.
  unfold sampled. destruct (read_inputs (rel t)) as [s|] eqn:Hr; simpl.
  - rewrite (step_read _ _ _ Hr), view_update_ui. apply view_debounce_all.
  - rewrite (step_failed _ _ Hr). reflexivity.
Qed.

Lemma tick_event_sampled (ch : Channel) (t : Tick) (g : Globals) :
  tick_event cfg ch t g =
  match sampled ch t with
  | Some v => snd (process_sample (delay_of cfg ch) v (now_ms t) (view ch g))
  | None => false
  end.
Proof.
  unfold tick_event, sampled, emits.
  destruct (read_inputs (rel t)); reflexivity.
Qed.

Lemma sums_step (t : Tick) (s : Samples) (g : Globals) :
  read_inputs (rel t) = Some s ->
  sum_ohb (step cfg t g) =
    drop (emits cfg OHB_SUB s (now_ms t) g)
      (bump (emits cfg OHB_ADD s (now_ms t) g) (sum_ohb g)) /\
  sum_ws (step cfg t g) =
    drop (emits cfg WS_SUB s (now_ms t) g)
      (bump (emits cfg WS_ADD s (now_ms t) g) (sum_ws g)).
Proof.
  intros Hr. rewrite (step_read _ _ _ Hr).
  destruct (sums_update_ui (debounce_all cfg s (now_ms t) g)) as [-> ->].
  rewrite sum_ohb_debounce_all, sum_ws_debounce_all. split; reflexivity.
Qed.

Lemma sums_nonneg_step (t : Tick) (g : Globals) :
  0 <= sum_ohb g /\ 0 <= sum_ws g ->
  0 <= sum_ohb (step cfg t g) /\ 0 <= sum_ws (step cfg t g).
Proof.
  intros [Ho Hw]. destruct (read_inputs (rel t)) as [s|] eqn:Hr.
  - destruct (sums_step t s g Hr) as [-> ->].
    split; apply drop_nonneg, bump_nonneg; assumption.
  - rewrite (step_failed _ _ Hr). split; assumption.
Qed.

Lemma sums_tick (t : Tick) (g : Globals) :
  sum_ohb (step cfg t g) =
    drop (tick_event cfg OHB_SUB t g)
      (bump (tick_event cfg OHB_ADD t g) (sum_ohb g)) /\
  sum_ws (step cfg t g) =
    drop (tick_event cfg WS_SUB t g)
      (bump (tick_event cfg WS_ADD t g) (sum_ws g)).
Proof.
  unfold tick_event. destruct (read_inputs (rel t)) as [s|] eqn:Hr.
  - apply sums_step, Hr.
  - rewrite (step_failed _ _ Hr). split; reflexivity.
Qed.

Lemma counts_as_tick_event (ch : Channel) (t : Tick) (g : Globals) :
  counts_as cfg ch (tick_event cfg ch t g) t g.
Proof.
  unfold counts_as, tick_sums, override.
  destruct (sums_tick t g) as [-> ->]. destruct ch; reflexivity.
Qed.

Lemma counted_as_events (ch : Channel) (ticks : list Tick) :
  forall g, counted_as cfg ch ticks (events_of cfg ch ticks g) g.
Proof.
  induction ticks as [|t ticks IH]; intros g; simpl; [exact I|].
  split; [apply counts_as_tick_event | apply IH].
Qed.

(** The block of a sensor, case by case. *)
Lemma block_held_active (ch : Channel) (s : Samples) (now : Z) (g : Globals) :
  sample_of ch s = 1 -> is_held (view ch g) = true ->
  block ch cfg s now g = g.
Proof.
  intros Hs Hh. rewrite block_channel_step. unfold channel_step.
  rewrite Hs, (process_sample_held _ _ _ Hh). apply set_view_view.
Qed.

Lemma block_rise (ch : Channel) (s : Samples) (now r : Z) (g : Globals) :
  sample_of ch s = 1 -> view ch g = mkDebounce false r ->
  block ch cfg s now g =
  if now - r >=? delay_of cfg ch
  then count_event ch (set_view ch (mkDebounce true r) g)
  else set_view ch (mkDebounce true r) g.
Proof.
  intros Hs Hv. rewrite block_channel_step. unfold channel_step.
  rewrite Hs, Hv. simpl. destruct (now - r >=? delay_of cfg ch); reflexivity.
Qed.

Lemma block_release (ch : Channel) (s : Samples) (now : Z) (g : Globals) :
  sample_of ch s <> 1 -> is_held (view ch g) = true ->
  block ch cfg s now g = set_view ch (mkDebounce false now) g.
Proof.
  intros Hs Hh. rewrite block_channel_step. unfold channel_step.
  rewrite (process_sample_fall _ _ _ _ Hh Hs). reflexivity.
Qed.

Lemma ui_of_tick (hw : Hardware) (now : Z) (s : Samples)
    (g : Globals) :
  read_inputs hw = Some s ->
  let o := read_inputs_and_update cfg hw now g in
  ui o =
    calls_for (prev_total g) (prev_ohb g) (prev_ws g)
      (sum_ohb (globals o) + sum_ws (globals o))
      (sum_ohb (globals o)) (sum_ws (globals o)) /\
  prev_total (globals o) = sum_ohb (globals o) + sum_ws (globals o) /\
  prev_ohb (globals o) = sum_ohb (globals o) /\
  prev_ws (globals o) = sum_ws (globals o).
Proof.
  intros Hr. unfold read_inputs_and_update. rewrite Hr.
  pose proof (update_ui_calls (debounce_all cfg s now g)) as Hc.
  pose proof (update_ui_prev (debounce_all cfg s now g)) as Hp.
  pose proof (sums_update_ui (debounce_all cfg s now g)) as Hs.
  destruct (prev_debounce_all s now g) as [Et [Eo Ew]].
  destruct (update_ui (debounce_all cfg s now g)) as [g' calls].
  simpl in *. destruct Hs as [-> ->]. rewrite <- Et, <- Eo, <- Ew.
  split; [exact Hc | exact Hp].
Qed.

(** A rise, and a sensor that stays held. *)

Lemma rise_tick (ch : Channel) (t : Tick) (g : Globals) (r : Z) :
  view ch g = mkDebounce false r -> sampled ch t = Some 1 ->
  tick_event cfg ch t g = (now_ms t - r >=? delay_of cfg ch) /\
  view ch (step cfg t g) = mkDebounce true r.
Proof.
  intros Hv Hs. rewrite tick_event_sampled, view_step, Hs, Hv.
  split; reflexivity.
Qed.

Lemma held_tick_no_event (ch : Channel) (t : Tick) (g : Globals) :
  is_held (view ch g) = true -> reads_active ch t ->
  tick_event cfg ch t g = false /\ view ch (step cfg t g) = view ch g.
Proof.
  intros Hh Ha. rewrite tick_event_sampled, view_step.
  destruct (sampled ch t) as [v|] eqn:Hs; [|split; reflexivity].
  rewrite (Ha v Hs), process_sample_held by exact Hh.
  split; reflexivity.
Qed.

(** Runs of ticks. *)

Lemma run_preserves (P : Globals -> Prop) :
  (forall t g, P g -> P (step cfg t g)) ->
  forall ticks g, P g -> P (run cfg ticks g).
Proof.
  intros Hstep ticks. induction ticks as [|t ticks IH]; intros g Hg; simpl.
  - exact Hg.
  - apply IH, Hstep, Hg.
Qed.

Lemma held_matches_run (ch : Channel) (ticks : list Tick) :
  forall (g : Globals) (seen : option Z),
    held_matches seen (view ch g) ->
    held_matches (last_sample ch ticks seen) (view ch (run cfg ticks g)).
Proof.
  induction ticks as [|t ticks IH]; intros g seen H; simpl; [exact H|].
  apply IH. unfold held_matches. rewrite view_step.
  destruct (sampled ch t) as [v|].
  - apply held_after_sample.
  - exact H.
Qed.

Lemma held_run_no_events (ch : Channel) (ticks : list Tick) :
  forall g,
    is_held (view ch g) = true -> Forall (reads_active ch) ticks ->
    events_of cfg ch ticks g = repeat false (length ticks) /\
    view ch (run cfg ticks g) = view ch g.
Proof.
  induction ticks as [|t ticks IH]; intros g Hh Hall; simpl.
  - split; reflexivity.
  - inversion Hall as [|? ? Ht Hrest]; subst.
    destruct (held_tick_no_event ch t g Hh Ht) as [He Hv].
    destruct (IH (step cfg t g)) as [IHe IHv].
    + rewrite Hv. exact Hh.
    + exact Hrest.
    + rewrite He, IHe, IHv, Hv. split; reflexivity.
Qed.

End Tick.

(** ** A worked run *)

(** With the default configuration: the overhead buffer add sensor goes high
    at 2000 ms (counted), is still high at 2010, goes low at 2020, goes high
    again at 2500 (480 ms after the release: not counted) and is still high
    at 3200.  One tray was counted. *)
Example worked_run :
  events_of default_config OHB_ADD
    [tick_at only_ohb_add 2000; tick_at only_ohb_add 2010;
     tick_at all_low 2020; tick_at only_ohb_add 2500;
     tick_at only_ohb_add 3200] initial
  = [true; false; false; false; false] /\
  sum_ohb
    (run default_config
       [tick_at only_ohb_add 2000; tick_at only_ohb_add 2010;
        tick_at all_low 2020; tick_at only_ohb_add 2500;
        tick_at only_ohb_add 3200] initial) = 1.
Proof. split; reflexivity. Qed.

(** ** The claims *)

(** C1, as the script has it.  For a sensor in its start-up state (not held,
    release time 0), a tick that reads it at 1 counts exactly when the clock
    shows at least the cooldown.  When it does, the block marks the sensor
    held and runs its counting branch (an add sensor raises its sum by one,
    a subtract sensor lowers its sum by one unless the sum is not above
    zero), and the sums of the tick are those of a tick on which the sensor
    counts.  When the clock shows less than the cooldown, the block only
    marks the sensor held, and the sums of the tick are those of a tick on
    which the sensor does not count. *)
Theorem first_activation_counts_after_cooldown (cfg : Config) (ch : Channel)
    (t : Tick) (s : Samples) (g : Globals) :
  view ch g = fresh ->
  read_inputs (rel t) = Some s ->
  sample_of ch s = 1 ->
  tick_event cfg ch t g = (now_ms t >=? delay_of cfg ch) /\
  (delay_of cfg ch <= now_ms t ->
   tick_event cfg ch t g = true /\
   block ch cfg s (now_ms t) g =
     count_event ch (set_view ch (mkDebounce true 0) g) /\
   counts_as cfg ch true t g) /\
  (now_ms t < delay_of cfg ch ->
   block ch cfg s (now_ms t) g = set_view ch (mkDebounce true 0) g /\
   counts_as cfg ch false t g).
Proof.
  intros Hv Hr Hs.
  assert (E : tick_event cfg ch t g = (now_ms t >=? delay_of cfg ch)).
  { unfold tick_event, emits. rewrite Hr, Hv, Hs. unfold fresh; simpl.
    rewrite Z.sub_0_r. reflexivity. }
  pose proof (counts_as_tick_event cfg ch t g) as Hc. rewrite E in Hc.
  pose proof (block_rise cfg ch s (now_ms t) 0 g Hs Hv) as Hb.
  rewrite Z.sub_0_r in Hb.
  split; [exact E|]. split; intros Hd.
  - rewrite (geb_true_le _ _ Hd) in *. auto.
  - rewrite (geb_false_lt _ _ Hd) in *. auto.
Qed.

Lemma first_activation_counts_after_cooldown_witness :
  view OHB_SUB (step default_config (tick_at only_ohb_add 2000) initial)
    = fresh /\
  delay_of default_config OHB_SUB <= 2500 /\
  tick_event default_config OHB_SUB (tick_at both_ohb 2500)
    (step default_config (tick_at only_ohb_add 2000) initial) = true /\
  sum_ohb
    (block OHB_SUB default_config both_ohb 2500
       (step default_config (tick_at only_ohb_add 2000) initial)) = 0 /\
  counts_as default_config OHB_SUB true (tick_at both_ohb 2500)
    (step default_config (tick_at only_ohb_add 2000) initial).
Proof.
  split; [reflexivity|]. split; [vm_compute; discriminate|].
  destruct (first_activation_counts_after_cooldown default_config OHB_SUB
              (tick_at both_ohb 2500) both_ohb
              (step default_config (tick_at only_ohb_add 2000) initial)
              eq_refl eq_refl eq_refl) as [_ [H _]].
  destruct H as [He [Hb Hc]]; [vm_compute; discriminate|].
  split; [exact He|]. split; [|exact Hc].
  exact (eq_trans (f_equal sum_ohb Hb) eq_refl).
Defined.

(** C1, as claimed, fails: from the initial globals and with the default
    cooldown of 1000 ms, a tick at 500 ms that reads the overhead buffer add
    sensor at 1 does not count: its block only marks the sensor held, and
    [sum_ohb] stays 0. *)
Lemma first_activation_inside_cooldown_not_counted :
  0 <= 500 /\
  view OHB_ADD initial = fresh /\
  sampled OHB_ADD (tick_at only_ohb_add 500) = Some 1 /\
  tick_event default_config OHB_ADD (tick_at only_ohb_add 500) initial = false /\
  block_ohb_add default_config 1 500 initial =
    set_sig_ohb_add_detected true initial /\
  sum_ohb (step default_config (tick_at only_ohb_add 500) initial) = 0.
Proof.
  split; [lia|]. repeat split; reflexivity.
Qed.

(** C3 (no retrigger).  Take a sensor whose release was recorded at [t0]
    and a tick that reads it at 1 when less than the cooldown has passed
    since [t0].  That tick does not count, and no later tick counts as long
    as the sensor keeps being read at 1, whatever the clock shows by then
    (in particular long after [t0] plus the cooldown): on each of these
    ticks the sums go as on a tick on which the sensor does not count; the
    sensor ends up held with its release time still [t0].  In the code: the
    block of a released sensor that rises inside its cooldown only sets the
    held flag, and the block of a held sensor that reads 1 changes
    nothing, at any time. *)
Theorem suppressed_rise_never_counts (cfg : Config) (ch : Channel)
    (g : Globals) (t0 : Z) (t : Tick) (later : list Tick) :
  view ch g = mkDebounce false t0 ->
  sampled ch t = Some 1 ->
  now_ms t - t0 < delay_of cfg ch ->
  Forall (reads_active ch) later ->
  events_of cfg ch (t :: later) g = repeat false (length (t :: later)) /\
  view ch (run cfg (t :: later) g) = mkDebounce true t0 /\
  counted_as cfg ch (t :: later) (repeat false (length (t :: later))) g /\
  (forall s now g0,
      sample_of ch s = 1 -> view ch g0 = mkDebounce false t0 ->
      now - t0 < delay_of cfg ch ->
      block ch cfg s now g0 = set_view ch (mkDebounce true t0) g0) /\
  (forall s now g0,
      sample_of ch s = 1 -> is_held (view ch g0) = true ->
      block ch cfg s now g0 = g0).
Proof.
  intros Hv Hs Hlt Hall.
  assert (He : events_of cfg ch (t :: later) g =
               repeat false (length (t :: later))).
  { simpl. destruct (rise_tick cfg ch t g t0 Hv Hs) as [He Hv1].
    destruct (held_run_no_events cfg ch later (step cfg t g)) as [Hes _];
      [rewrite Hv1; reflexivity | exact Hall |].
    rewrite He, Hes, (geb_false_lt _ _ Hlt). reflexivity. }
  split; [exact He|]. split; [|split; [|split]].
  - simpl. destruct (rise_tick cfg ch t g t0 Hv Hs) as [_ Hv1].
    destruct (held_run_no_events cfg ch later (step cfg t g)) as [_ Hvs];
      [rewrite Hv1; reflexivity | exact Hall |].
    rewrite Hvs. exact Hv1.
  - rewrite <- He. apply counted_as_events.
  - intros s now g0 H1 H0 Hd.
    rewrite (block_rise cfg ch s now t0 g0 H1 H0), (geb_false_lt _ _ Hd).
    reflexivity.
  - intros s now g0. apply block_held_active.
Qed.

Lemma suppressed_rise_never_counts_witness :
  view OHB_ADD after_release = mkDebounce false 2020 /\
  sampled OHB_ADD (tick_at only_ohb_add 2500) = Some 1 /\
  2500 - 2020 < delay_of default_config OHB_ADD /\
  events_of default_config OHB_ADD
    [tick_at only_ohb_add 2500; tick_at both_ohb 3200; mkTick hw_down 3300;
     tick_at only_ohb_add 9000] after_release
  = [false; false; false; false] /\
  view OHB_ADD
    (run default_config
       [tick_at only_ohb_add 2500; tick_at both_ohb 3200; mkTick hw_down 3300;
        tick_at only_ohb_add 9000] after_release)
  = mkDebounce true 2020 /\
  counted_as default_config OHB_ADD
    [tick_at only_ohb_add 2500; tick_at both_ohb 3200; mkTick hw_down 3300;
     tick_at only_ohb_add 9000] [false; false; false; false] after_release.
Proof.
  split; [reflexivity|]. split; [reflexivity|].
  split; [unfold delay_of; simpl; lia|].
  assert (Hd : 2500 - 2020 < delay_of default_config OHB_ADD)
    by (unfold delay_of; simpl; lia).
  assert (Ha : Forall (reads_active OHB_ADD)
                 [tick_at both_ohb 3200; mkTick hw_down 3300;
                  tick_at only_ohb_add 9000]).
  { repeat constructor.
    - apply reads_active_tick_at; reflexivity.
    - apply reads_active_failed.
    - apply reads_active_tick_at; reflexivity. }
  destruct (suppressed_rise_never_counts default_config OHB_ADD after_release
              2020 (tick_at only_ohb_add 2500)
              [tick_at both_ohb 3200; mkTick hw_down 3300;
               tick_at only_ohb_add 9000] eq_refl eq_refl Hd Ha)
    as [He [Hv [Hc _]]].
  split; [exact He|]. split; [exact Hv | exact Hc].
Defined.

(** C4 (read-failure atomicity).  When one of the reads of a tick raises,
    whichever line it is, the tick hands back the globals it received -- the
    two sums, the four held flags, the four release times and the three
    remembered display values, all unchanged -- and makes no call on the
    display. *)
Theorem read_failure_is_atomic (cfg : Config) (hw : Hardware) (now : Z)
    (g : Globals) (ch : Channel) :
  hw (channel_id ch) = None ->
  globals (read_inputs_and_update cfg hw now g) = g /\
  ui (read_inputs_and_update cfg hw now g) = [].
Proof.
  intros H. unfold read_inputs_and_update.
  rewrite (read_inputs_fails hw ch H). split; reflexivity.
Qed.

Lemma read_failure_is_atomic_witness :
  hw_fails_third (channel_id WS_ADD) = None /\
  globals (read_inputs_and_update default_config hw_fails_third 500
             (step default_config (tick_at only_ohb_add 2000) initial))
  = step default_config (tick_at only_ohb_add 2000) initial /\
  ui (read_inputs_and_update default_config hw_fails_third 500
        (step default_config (tick_at only_ohb_add 2000) initial)) = [].
Proof.
  split; [reflexivity|].
  apply (read_failure_is_atomic default_config hw_fails_third 500
           (step default_config (tick_at only_ohb_add 2000) initial) WS_ADD).
  reflexivity.
Defined.

(** C5 (single count per hold).  A sensor that is released, with at least
    its cooldown elapsed since the release at the time of the first tick, is
    read 1, 1, 1 and then some other level on four ticks: it counts on the
    first tick and on none of the other three.  The sums go accordingly: on
    the first tick as on a tick on which the sensor counts, on the other
    three as on ticks on which it does not; and the sensor ends released,
    its release time that of the fourth tick. *)
Theorem single_count_per_hold (cfg : Config) (ch : Channel) (g : Globals)
    (ta tb tc td : Tick) (low : Z) :
  is_held (view ch g) = false ->
  delay_of cfg ch <= now_ms ta - last_release_time (view ch g) ->
  sampled ch ta = Some 1 ->
  sampled ch tb = Some 1 ->
  sampled ch tc = Some 1 ->
  sampled ch td = Some low -> low <> 1 ->
  events_of cfg ch [ta; tb; tc; td] g = [true; false; false; false] /\
  counted_as cfg ch [ta; tb; tc; td] [true; false; false; false] g /\
  view ch (run cfg [ta; tb; tc; td] g) = mkDebounce false (now_ms td).
Proof.
  intros Hh Hd Ha Hb Hc Hl Hne.
  assert (Hv : view ch g = mkDebounce false (last_release_time (view ch g)))
    by (destruct (view ch g); simpl in *; congruence).
  destruct (rise_tick cfg ch ta g _ Hv Ha) as [Ea Va].
  assert (Hab : forall v, sampled ch tb = Some v -> v = 1) by congruence.
  assert (Hac : forall v, sampled ch tc = Some v -> v = 1) by congruence.
  destruct (held_tick_no_event cfg ch tb (step cfg ta g)) as [Eb Vb];
    [rewrite Va; reflexivity | exact Hab |].
  destruct (held_tick_no_event cfg ch tc (step cfg tb (step cfg ta g)))
    as [Ec Vc]; [rewrite Vb, Va; reflexivity | exact Hac |].
  assert (He : events_of cfg ch [ta; tb; tc; td] g =
               [true; false; false; false]).
  { simpl. rewrite Ea, Eb, Ec, (geb_true_le _ _ Hd).
    rewrite tick_event_sampled, Hl, Vc, Vb, Va.
    rewrite process_sample_fall by (auto; reflexivity). reflexivity. }
  split; [exact He|]. split.
  - rewrite <- He. apply counted_as_events.
  - simpl. rewrite view_step, Hl, Vc, Vb, Va.
    rewrite process_sample_fall by (auto; reflexivity). reflexivity.
Qed.

Lemma single_count_per_hold_witness :
  is_held (view OHB_ADD after_release) = false /\
  delay_of default_config OHB_ADD
    <= 3020 - last_release_time (view OHB_ADD after_release) /\
  events_of default_config OHB_ADD
    [tick_at only_ohb_add 3020; tick_at only_ohb_add 3030;
     tick_at only_ohb_add 3040; tick_at all_low 3050] after_release
  = [true; false; false; false] /\
  counted_as default_config OHB_ADD
    [tick_at only_ohb_add 3020; tick_at only_ohb_add 3030;
     tick_at only_ohb_add 3040; tick_at all_low 3050]
    [true; false; false; false] after_release /\
  view OHB_ADD
    (run default_config
       [tick_at only_ohb_add 3020; tick_at only_ohb_add 3030;
        tick_at only_ohb_add 3040; tick_at all_low 3050] after_release)
  = mkDebounce false 3050.
Proof.
  split; [reflexivity|]. split; [vm_compute; discriminate|].
  apply (single_count_per_hold default_config OHB_ADD after_release
           (tick_at only_ohb_add 3020) (tick_at only_ohb_add 3030)
           (tick_at only_ohb_add 3040) (tick_at all_low 3050) 0).
  - reflexivity.
  - vm_compute; discriminate.
  - reflexivity.
  - reflexivity.
  - reflexivity.
  - reflexivity.
  - discriminate.
Defined.

(** C6 (non-negativity).  Along every run of ticks from the initial globals,
    whatever is read and whatever the clock shows, [sum_ohb] and [sum_ws] are
    never negative; and a subtract block that counts while its sum is 0
    leaves the sum at 0. *)
Theorem sums_never_negative (cfg : Config) (ticks : list Tick) :
  (0 <= sum_ohb (run cfg ticks initial) /\
   0 <= sum_ws (run cfg ticks initial)) /\
  (forall s now g,
      sum_ohb g = 0 -> emits cfg OHB_SUB s now g = true ->
      sum_ohb (block OHB_SUB cfg s now g) = 0) /\
  (forall s now g,
      sum_ws g = 0 -> emits cfg WS_SUB s now g = true ->
      sum_ws (block WS_SUB cfg s now g) = 0).
Proof.
  split; [|split].
  - apply (run_preserves cfg (fun g => 0 <= sum_ohb g /\ 0 <= sum_ws g)).
    + intros t g. apply sums_nonneg_step.
    + simpl. lia.
  - intros s now g Hz He.
    rewrite block_channel_step, sum_ohb_channel_step, He, Hz. reflexivity.
  - intros s now g Hz He.
    rewrite block_channel_step, sum_ws_channel_step, He, Hz. reflexivity.
Qed.

Lemma sums_never_negative_witness :
  sum_ohb initial = 0 /\
  emits default_config OHB_SUB (mkSamples 0 1 0 0) 2000 initial = true /\
  sum_ohb (block OHB_SUB default_config (mkSamples 0 1 0 0) 2000 initial) = 0 /\
  sum_ws initial = 0 /\
  emits default_config WS_SUB both_ws 2000 initial = true /\
  sum_ws (block WS_SUB default_config both_ws 2000 initial) = 0.
Proof.
  destruct (sums_never_negative default_config []) as [_ [Ho Hw]].
  split; [reflexivity|]. split; [reflexivity|].
  split; [apply Ho; reflexivity|].
  split; [reflexivity|]. split; [reflexivity|].
  apply Hw; reflexivity.
Defined.

(** C7 (change-only notification).  On a tick whose reads go through, each
    of the three cards gets exactly one [set_value] call, with the new value,
    when its value differs from the one remembered from the last report, and
    none when it does not; after the tick the remembered values are the
    values of that tick.  So if the next tick, whatever it reads, ends with
    the same [sum_ohb] and [sum_ws] (hence the same total), it makes no call
    at all. *)
Theorem display_told_only_of_changes (cfg : Config) (t t' : Tick)
    (s : Samples) (g : Globals) :
  read_inputs (rel t) = Some s ->
  let o := read_inputs_and_update cfg (rel t) (now_ms t) g in
  let o' := read_inputs_and_update cfg (rel t') (now_ms t') (globals o) in
  ui o =
    calls_for (prev_total g) (prev_ohb g) (prev_ws g)
      (sum_ohb (globals o) + sum_ws (globals o))
      (sum_ohb (globals o)) (sum_ws (globals o)) /\
  (prev_total (globals o), prev_ohb (globals o), prev_ws (globals o)) =
    (sum_ohb (globals o) + sum_ws (globals o),
     sum_ohb (globals o), sum_ws (globals o)) /\
  (sum_ohb (globals o') = sum_ohb (globals o) ->
   sum_ws (globals o') = sum_ws (globals o) ->
   ui o' = []).
Proof.
  intros Hr o o'.
  destruct (ui_of_tick cfg (rel t) (now_ms t) s g Hr) as [Hc [Pt [Po Pw]]].
  fold o in Hc, Pt, Po, Pw.
  split; [exact Hc|]. split; [rewrite Pt, Po, Pw; reflexivity|].
  intros Eo Ew. subst o'.
  destruct (read_inputs (rel t')) as [s'|] eqn:Hr'.
  - destruct (ui_of_tick cfg (rel t') (now_ms t') s' (globals o) Hr')
      as [Hc' _].
    rewrite Hc', Eo, Ew, Pt, Po, Pw. apply calls_for_same.
  - unfold read_inputs_and_update. rewrite Hr'. reflexivity.
Qed.

Lemma display_told_only_of_changes_witness :
  read_inputs (rel (tick_at only_ohb_add 2000)) = Some only_ohb_add /\
  ui (read_inputs_and_update default_config (hw_of only_ohb_add) 2000 initial)
    = [TotalSetValue 1; OhbSetValue 1; WsSetValue 0] /\
  ui (read_inputs_and_update default_config (hw_of only_ohb_add) 2010
        (step default_config (tick_at only_ohb_add 2000) initial)) = [].
Proof.
  split; [reflexivity|].
  destruct (display_told_only_of_changes default_config
              (tick_at only_ohb_add 2000) (tick_at only_ohb_add 2010)
              only_ohb_add initial eq_refl) as [Hc [_ Hn]].
  split; [exact Hc|]. apply Hn; reflexivity.
Defined.

(** C8 (held flag).  Along every run of ticks from the initial globals, and
    for each of the four sensors, the held flag is set exactly when the last
    level that was read on that sensor was 1; before any level has been read
    it is clear. *)
Theorem held_iff_last_sample_active (cfg : Config) (ch : Channel)
    (ticks : list Tick) :
  is_held (view ch (run cfg ticks initial)) =
  match last_sample ch ticks None with
  | Some v => v =? 1
  | None => false
  end.
Proof.
  apply (held_matches_run cfg ch ticks initial None).
  destruct ch; reflexivity.
Qed.

(** C10 (order within a tick).  A tick whose reads go through is the block
    of OHB_ADD, then that of OHB_SUB, then that of WS_ADD, then that of
    WS_SUB, then the display update.  Hence, on a tick where [sum_ohb]
    starts at 0 and both overhead buffer sensors rise with their cooldowns
    elapsed, the add block leaves 1, the subtract block run after it brings
    it back to 0, and 0 is the value at the end of the tick, with both
    sensors held; had the subtract block run first, its decrement would have
    been floored and the sum would have ended at 1.  Likewise for
    [sum_ws]. *)
Theorem add_counts_before_sub (cfg : Config) (t : Tick) (s : Samples)
    (g : Globals) :
  read_inputs (rel t) = Some s ->
  step cfg t g =
    fst (update_ui
           (block WS_SUB cfg s (now_ms t)
              (block WS_ADD cfg s (now_ms t)
                 (block OHB_SUB cfg s (now_ms t)
                    (block OHB_ADD cfg s (now_ms t) g))))) /\
  debounce_all cfg s (now_ms t) g =
    channel_step cfg WS_SUB s (now_ms t)
      (channel_step cfg WS_ADD s (now_ms t)
         (channel_step cfg OHB_SUB s (now_ms t)
            (channel_step cfg OHB_ADD s (now_ms t) g))) /\
  (sum_ohb g = 0 ->
   tick_event cfg OHB_ADD t g = true -> tick_event cfg OHB_SUB t g = true ->
   sum_ohb (block OHB_ADD cfg s (now_ms t) g) = 1 /\
   sum_ohb (block OHB_SUB cfg s (now_ms t)
              (block OHB_ADD cfg s (now_ms t) g)) = 0 /\
   sum_ohb (step cfg t g) = 0 /\
   sum_ohb (block OHB_ADD cfg s (now_ms t)
              (block OHB_SUB cfg s (now_ms t) g)) = 1 /\
   is_held (view OHB_ADD (step cfg t g)) = true /\
   is_held (view OHB_SUB (step cfg t g)) = true) /\
  (sum_ws g = 0 ->
   tick_event cfg WS_ADD t g = true -> tick_event cfg WS_SUB t g = true ->
   sum_ws (block WS_ADD cfg s (now_ms t) g) = 1 /\
   sum_ws (block WS_SUB cfg s (now_ms t)
             (block WS_ADD cfg s (now_ms t) g)) = 0 /\
   sum_ws (step cfg t g) = 0 /\
   sum_ws (block WS_ADD cfg s (now_ms t)
             (block WS_SUB cfg s (now_ms t) g)) = 1 /\
   is_held (view WS_ADD (step cfg t g)) = true /\
   is_held (view WS_SUB (step cfg t g)) = true).
Proof.
  intros Hr. split; [exact (step_read cfg t s g Hr)|].
  split; [apply debounce_all_steps|].
  unfold tick_event. rewrite Hr.
  destruct (sums_step cfg t s g Hr) as [Eo Ew].
  assert (Hheld : forall ch, emits cfg ch s (now_ms t) g = true ->
                    is_held (view ch (step cfg t g)) = true).
  { intros ch He. rewrite view_step. unfold sampled. rewrite Hr; simpl.
    rewrite held_after_sample. unfold emits, process_sample in He.
    destruct (sample_of ch s =? 1); [reflexivity|].
    simpl in He. destruct (is_held (view ch g)); discriminate. }
  split; intros Hz Ha Hs.
  - rewrite !block_channel_step, !sum_ohb_channel_step, Eo.
    rewrite !emits_channel_step_other by discriminate.
    rewrite Ha, Hs, Hz. repeat split; auto.
  - rewrite !block_channel_step, !sum_ws_channel_step, Ew.
    rewrite !emits_channel_step_other by discriminate.
    rewrite Ha, Hs, Hz. repeat split; auto.
Qed.

Lemma add_counts_before_sub_witness :
  sum_ohb initial = 0 /\
  tick_event default_config OHB_ADD (tick_at both_ohb 2000) initial = true /\
  tick_event default_config OHB_SUB (tick_at both_ohb 2000) initial = true /\
  sum_ohb (block OHB_ADD default_config both_ohb 2000 initial) = 1 /\
  sum_ohb (step default_config (tick_at both_ohb 2000) initial) = 0 /\
  sum_ohb (block OHB_ADD default_config both_ohb 2000
             (block OHB_SUB default_config both_ohb 2000 initial)) = 1 /\
  sum_ws initial = 0 /\
  tick_event default_config WS_ADD (tick_at both_ws 2000) initial = true /\
  tick_event default_config WS_SUB (tick_at both_ws 2000) initial = true /\
  sum_ws (block WS_ADD default_config both_ws 2000 initial) = 1 /\
  sum_ws (step default_config (tick_at both_ws 2000) initial) = 0 /\
  sum_ws (block WS_ADD default_config both_ws 2000
            (block WS_SUB default_config both_ws 2000 initial)) = 1.
Proof.
  destruct (add_counts_before_sub default_config (tick_at both_ohb 2000)
              both_ohb initial eq_refl) as [_ [_ [Ho _]]].
  destruct (add_counts_before_sub default_config (tick_at both_ws 2000)
              both_ws initial eq_refl) as [_ [_ [_ Hw]]].
  destruct (Ho eq_refl eq_refl eq_refl) as [Ho1 [_ [Ho2 [Ho3 _]]]].
  destruct (Hw eq_refl eq_refl eq_refl) as [Hw1 [_ [Hw2 [Hw3 _]]]].
  split; [reflexivity|]. split; [reflexivity|]. split; [reflexivity|].
  split; [exact Ho1|]. split; [exact Ho2|]. split; [exact Ho3|].
  split; [reflexivity|]. split; [reflexivity|]. split; [reflexivity|].
  split; [exact Hw1|]. split; [exact Hw2 | exact Hw3].
Defined.

End WsbcFacts.

(** * The two scripts compared *)

(** In the second script too the four blocks are the one debouncer, each
    with its own delay. *)
Lemma second_block_channel_step (ch : Channel) (cfg : TestWsbc.Config)
    (s : Samples) (now : Z) (g : TestWsbc.Globals) :
  TestWsbc.block ch cfg s now g = TestWsbc.channel_step cfg ch s now g.
Proof.
  destruct g as [so sw pt po pw f1 f2 f3 f4 t1 t2 t3 t4], s as [a b c d].
  destruct ch;
    unfold TestWsbc.block, TestWsbc.channel_step, TestWsbc.process_sample,
      TestWsbc.delay_of; simpl;
    unfold TestWsbc.block_ohb_add, TestWsbc.block_ohb_sub,
      TestWsbc.block_ws_add, TestWsbc.block_ws_sub; simpl.
  - destruct (a =? 1), f1; simpl; case_levels; reflexivity.
  - destruct (b =? 1), f2; simpl; case_levels; reflexivity.
  - destruct (c =? 1), f3; simpl; case_levels; reflexivity.
  - destruct (d =? 1), f4; simpl; case_levels; reflexivity.
Qed.

Lemma second_debounce_all_steps (cfg : TestWsbc.Config) (s : Samples)
    (now : Z) (g : TestWsbc.Globals) :
  TestWsbc.debounce_all cfg s now g =
  TestWsbc.channel_step cfg WS_SUB s now
    (TestWsbc.channel_step cfg WS_ADD s now
       (TestWsbc.channel_step cfg OHB_SUB s now
          (TestWsbc.channel_step cfg OHB_ADD s now g))).
Proof.
  rewrite <- !second_block_channel_step. reflexivity.
Qed.

Lemma common_block_ohb_add (cfg : Wsbc.Config) (a now : Z) (g : Wsbc.Globals) :
  TestWsbc.block_ohb_add (uniform cfg) a now (common g) =
  common (Wsbc.block_ohb_add cfg a now g).
Proof.
  destruct g as [c1 c2 so sw pt po pw f1 f2 f3 f4 t1 t2 t3 t4].
  unfold TestWsbc.block_ohb_add, Wsbc.block_ohb_add; simpl.
  destruct (a =? 1), f1; simpl; case_levels; reflexivity.
Qed.

Lemma common_block_ohb_sub (cfg : Wsbc.Config) (b now : Z) (g : Wsbc.Globals) :
  TestWsbc.block_ohb_sub (uniform cfg) b now (common g) =
  common (Wsbc.block_ohb_sub cfg b now g).
Proof.
  destruct g as [c1 c2 so sw pt po pw f1 f2 f3 f4 t1 t2 t3 t4].
  unfold TestWsbc.block_ohb_sub, Wsbc.block_ohb_sub; simpl.
  destruct (b =? 1), f2; simpl; case_levels; reflexivity.
Qed.

Lemma common_block_ws_add (cfg : Wsbc.Config) (c now : Z) (g : Wsbc.Globals) :
  TestWsbc.block_ws_add (uniform cfg) c now (common g) =
  common (Wsbc.block_ws_add cfg c now g).
Proof.
  destruct g as [c1 c2 so sw pt po pw f1 f2 f3 f4 t1 t2 t3 t4].
  unfold TestWsbc.block_ws_add, Wsbc.block_ws_add; simpl.
  destruct (c =? 1), f3; simpl; case_levels; reflexivity.
Qed.

Lemma common_block_ws_sub (cfg : Wsbc.Config) (d now : Z) (g : Wsbc.Globals) :
  TestWsbc.block_ws_sub (uniform cfg) d now (common g) =
  common (Wsbc.block_ws_sub cfg d now g).
Proof.
  destruct g as [c1 c2 so sw pt po pw f1 f2 f3 f4 t1 t2 t3 t4].
  unfold TestWsbc.block_ws_sub, Wsbc.block_ws_sub; simpl.
  destruct (d =? 1), f4; simpl; case_levels; reflexivity.
Qed.

Lemma common_debounce_all (cfg : Wsbc.Config) (s : Samples) (now : Z)
    (g : Wsbc.Globals) :
  TestWsbc.debounce_all (uniform cfg) s now (common g) =
  common (Wsbc.debounce_all cfg s now g).
Proof.
  unfold TestWsbc.debounce_all, Wsbc.debounce_all.
  rewrite common_block_ohb_add, common_block_ohb_sub, common_block_ws_add,
    common_block_ws_sub.
  reflexivity.
Qed.

Lemma common_update_ui (g : Wsbc.Globals) :
  fst (TestWsbc.update_ui (common g)) = common (fst (Wsbc.update_ui g)) /\
  snd (TestWsbc.update_ui (common g)) =
    with_graph (snd (Wsbc.update_ui g)) (Wsbc.sum_ohb g) (Wsbc.sum_ws g).
Proof.
  destruct g as [c1 c2 so sw pt po pw f1 f2 f3 f4 t1 t2 t3 t4].
  unfold TestWsbc.update_ui, Wsbc.update_ui, common; simpl.
  destruct (so + sw =? pt); simpl; destruct (so =? po); simpl;
    destruct (sw =? pw); simpl; split; reflexivity.
Qed.

Lemma filter_with_graph (calls : list UiCall) (ohb ws : Z) :
  forallb is_set_value calls = true ->
  filter is_set_value (with_graph calls ohb ws) = calls.
Proof.
  intros H. destruct calls as [|c calls]; [reflexivity|].
  unfold with_graph. rewrite filter_app; simpl filter at 2.
  rewrite app_nil_r. apply forallb_filter_id. exact H.
Qed.

Lemma update_ui_only_set_value (g : Wsbc.Globals) :
  forallb is_set_value (snd (Wsbc.update_ui g)) = true.
Proof.
  destruct g as [c1 c2 so sw pt po pw f1 f2 f3 f4 t1 t2 t3 t4].
  unfold Wsbc.update_ui; simpl.
  destruct (so + sw =? pt); simpl; destruct (so =? po); simpl;
    destruct (sw =? pw); reflexivity.
Qed.

Lemma scripts_agree_on_tick (cfg : Wsbc.Config) (hw : Hardware) (now : Z)
    (g : Wsbc.Globals) :
  let o1 := Wsbc.read_inputs_and_update cfg hw now g in
  let o2 := TestWsbc.read_inputs_and_update (uniform cfg) hw now (common g) in
  globals o2 = common (globals o1) /\
  ui o2 =
    with_graph (ui o1) (Wsbc.sum_ohb (globals o1)) (Wsbc.sum_ws (globals o1)) /\
  filter is_set_value (ui o2) = ui o1 /\
  after_ms o2 = after_ms o1.
Proof.
  unfold Wsbc.read_inputs_and_update, TestWsbc.read_inputs_and_update.
  destruct (read_inputs hw) as [s|]; simpl.
  - rewrite common_debounce_all.
    pose proof (common_update_ui (Wsbc.debounce_all cfg s now g)) as [Hg Hc].
    pose proof (update_ui_only_set_value (Wsbc.debounce_all cfg s now g)) as Hs.
    pose proof (WsbcFacts.sums_update_ui (Wsbc.debounce_all cfg s now g))
      as [Eo Ew].
    destruct (TestWsbc.update_ui (common (Wsbc.debounce_all cfg s now g)))
      as [g2 c2].
    destruct (Wsbc.update_ui (Wsbc.debounce_all cfg s now g)) as [g1 c1].
    simpl in *. subst g2 c2. rewrite Eo, Ew.
    repeat split. apply filter_with_graph, Hs.
  - repeat split.
Qed.

Lemma common_block (ch : Channel) (cfg : Wsbc.Config) (s : Samples) (now : Z)
    (g : Wsbc.Globals) :
  TestWsbc.block ch (uniform cfg) s now (common g) =
  common (Wsbc.block ch cfg s now g).
Proof.
  destruct ch; simpl.
  - apply common_block_ohb_add.
  - apply common_block_ohb_sub.
  - apply common_block_ws_add.
  - apply common_block_ws_sub.
Qed.

Lemma common_run (cfg : Wsbc.Config) (ticks : list Tick) :
  forall g,
    TestWsbcRun.run (uniform cfg) ticks (common g) =
    common (Wsbc.run cfg ticks g).
Proof.
  induction ticks as [|t ticks IH]; intros g; simpl; [reflexivity|].
  unfold TestWsbcRun.step, Wsbc.step.
  destruct (scripts_agree_on_tick cfg (rel t) (now_ms t) g) as [-> _].
  apply IH.
Qed.

Lemma second_block_held_active (cfg : TestWsbc.Config) (ch : Channel)
    (s : Samples) (now : Z) (g : TestWsbc.Globals) :
  sample_of ch s = 1 -> is_held (TestWsbc.view ch g) = true ->
  TestWsbc.block ch cfg s now g = g.
Proof.
  intros Hs Hh. rewrite second_block_channel_step.
  unfold TestWsbc.channel_step, TestWsbc.process_sample.
  rewrite Hs, Hh. simpl. destruct g, ch; reflexivity.
Qed.

Lemma second_block_rise_suppressed (cfg : TestWsbc.Config) (ch : Channel)
    (s : Samples) (now : Z) (g : TestWsbc.Globals) :
  sample_of ch s = 1 -> is_held (TestWsbc.view ch g) = false ->
  now - last_release_time (TestWsbc.view ch g) < TestWsbc.delay_of cfg ch ->
  TestWsbc.block ch cfg s now g =
  TestWsbc.set_view ch
    (mkDebounce true (last_release_time (TestWsbc.view ch g))) g.
Proof.
  intros Hs Hh Hd. rewrite second_block_channel_step.
  unfold TestWsbc.channel_step, TestWsbc.process_sample.
  rewrite Hs, Hh, (WsbcFacts.geb_false_lt _ _ Hd). reflexivity.
Qed.

Lemma first_block_rise_suppressed (cfg : Wsbc.Config) (ch : Channel)
    (s : Samples) (now : Z) (g : Wsbc.Globals) :
  sample_of ch s = 1 -> is_held (Wsbc.view ch g) = false ->
  now - last_release_time (Wsbc.view ch g) < Wsbc.delay_of cfg ch ->
  Wsbc.block ch cfg s now g =
  Wsbc.set_view ch (mkDebounce true (last_release_time (Wsbc.view ch g))) g.
Proof.
  intros Hs Hh Hd.
  rewrite (WsbcFacts.block_rise cfg ch s now
             (last_release_time (Wsbc.view ch g)) g Hs).
  - rewrite (WsbcFacts.geb_false_lt _ _ Hd). reflexivity.
  - destruct (Wsbc.view ch g); simpl in *; congruence.
Qed.

(** C2, as the scripts have it.  The debounce rule is the same in the two
    scripts.  With equal cooldowns, the block of each sensor in the second
    script does to the common globals what the block of the first script
    does; a whole tick moves the common globals alike, makes the same
    [set_value] calls (followed by one graph point when there are any) and
    asks for the same delay; so every run of ticks ends in the same common
    globals.  And neither script re-arms: in both, the block of a held
    sensor that reads 1 changes nothing, whatever the clock shows, and the
    block of a released sensor that rises inside its cooldown sets the held
    flag and nothing else, so a suppressed rise is used up at the rising
    edge. *)
Theorem scripts_share_debounce_rule (cfg : Wsbc.Config)
    (cfg2 : TestWsbc.Config) (hw : Hardware) (ch : Channel) (s : Samples)
    (now : Z) (g : Wsbc.Globals) (g2 : TestWsbc.Globals) (ticks : list Tick) :
  TestWsbc.block ch (uniform cfg) s now (common g) =
    common (Wsbc.block ch cfg s now g) /\
  (let o1 := Wsbc.read_inputs_and_update cfg hw now g in
   let o2 := TestWsbc.read_inputs_and_update (uniform cfg) hw now (common g) in
   globals o2 = common (globals o1) /\
   ui o2 =
     with_graph (ui o1) (Wsbc.sum_ohb (globals o1)) (Wsbc.sum_ws (globals o1)) /\
   filter is_set_value (ui o2) = ui o1 /\
   after_ms o2 = after_ms o1) /\
  TestWsbcRun.run (uniform cfg) ticks (common g) =
    common (Wsbc.run cfg ticks g) /\
  (sample_of ch s = 1 -> is_held (Wsbc.view ch g) = true ->
   Wsbc.block ch cfg s now g = g) /\
  (sample_of ch s = 1 -> is_held (TestWsbc.view ch g2) = true ->
   TestWsbc.block ch cfg2 s now g2 = g2) /\
  (sample_of ch s = 1 -> is_held (Wsbc.view ch g) = false ->
   now - last_release_time (Wsbc.view ch g) < Wsbc.delay_of cfg ch ->
   Wsbc.block ch cfg s now g =
   Wsbc.set_view ch (mkDebounce true (last_release_time (Wsbc.view ch g))) g) /\
  (sample_of ch s = 1 -> is_held (TestWsbc.view ch g2) = false ->
   now - last_release_time (TestWsbc.view ch g2) < TestWsbc.delay_of cfg2 ch ->
   TestWsbc.block ch cfg2 s now g2 =
   TestWsbc.set_view ch
     (mkDebounce true (last_release_time (TestWsbc.view ch g2))) g2).
Proof.
  split; [apply common_block|].
  split; [apply scripts_agree_on_tick|].
  split; [apply common_run|].
  split; [apply WsbcFacts.block_held_active|].
  split; [apply second_block_held_active|].
  split; [apply first_block_rise_suppressed|].
  apply second_block_rise_suppressed.
Qed.

Lemma scripts_share_debounce_rule_witness :
  sample_of OHB_ADD only_ohb_add = 1 /\
  is_held (Wsbc.view OHB_ADD
             (Wsbc.step Wsbc.default_config (tick_at only_ohb_add 2000)
                Wsbc.initial)) = true /\
  Wsbc.block OHB_ADD Wsbc.default_config only_ohb_add 9000
    (Wsbc.step Wsbc.default_config (tick_at only_ohb_add 2000) Wsbc.initial)
  = Wsbc.step Wsbc.default_config (tick_at only_ohb_add 2000) Wsbc.initial /\
  is_held (TestWsbc.view OHB_ADD
             (TestWsbcRun.step TestWsbc.default_config
                (tick_at only_ohb_add 2000) TestWsbc.initial)) = true /\
  TestWsbc.block OHB_ADD TestWsbc.default_config only_ohb_add 9000
    (TestWsbcRun.step TestWsbc.default_config (tick_at only_ohb_add 2000)
       TestWsbc.initial)
  = TestWsbcRun.step TestWsbc.default_config (tick_at only_ohb_add 2000)
      TestWsbc.initial.
Proof.
  destruct (scripts_share_debounce_rule Wsbc.default_config
              TestWsbc.default_config hw_down OHB_ADD only_ohb_add 9000
              (Wsbc.step Wsbc.default_config (tick_at only_ohb_add 2000)
                 Wsbc.initial)
              (TestWsbcRun.step TestWsbc.default_config
                 (tick_at only_ohb_add 2000) TestWsbc.initial) [])
    as [_ [_ [_ [H1 [H2 _]]]]].
  split; [reflexivity|]. split; [reflexivity|].
  split; [apply H1; reflexivity|]. split; [reflexivity|].
  apply H2; reflexivity.
Defined.

(** C2, as claimed, fails: with equal cooldowns no sensor block and no run
    of ticks tells the two scripts apart on the common globals, and in
    neither script does the block of a held sensor that reads 1 change
    anything, so neither fires a suppressed rise later. *)
Lemma scripts_never_differ :
  ~ (exists cfg ch s now g,
        TestWsbc.block ch (uniform cfg) s now (common g) <>
        common (Wsbc.block ch cfg s now g)) /\
  ~ (exists cfg ticks g,
        TestWsbcRun.run (uniform cfg) ticks (common g) <>
        common (Wsbc.run cfg ticks g)) /\
  ~ (exists cfg cfg2 ch s now g g2,
        sample_of ch s = 1 /\
        is_held (Wsbc.view ch g) = true /\
        is_held (TestWsbc.view ch g2) = true /\
        (Wsbc.block ch cfg s now g <> g \/
         TestWsbc.block ch cfg2 s now g2 <> g2)).
Proof.
  split; [|split].
  - intros [cfg [ch [s [now [g H]]]]]. apply H, common_block.
  - intros [cfg [ticks [g H]]]. apply H, common_run.
  - intros [cfg [cfg2 [ch [s [now [g [g2 [Hs [H1 [H2 [H|H]]]]]]]]]]];
      apply H.
    + apply WsbcFacts.block_held_active; assumption.
    + apply second_block_held_active; assumption.
Qed.

(** C9 (failure backoff).  When one of the reads of a tick raises, either
    script reschedules itself after [max(200, POLL_INTERVAL_MS)]
    milliseconds, which is at least 200 whatever the poll interval is. *)
Theorem failed_read_backs_off (cfg : Wsbc.Config) (cfg' : TestWsbc.Config)
    (hw : Hardware) (now : Z) (g : Wsbc.Globals) (g' : TestWsbc.Globals)
    (ch : Channel) :
  hw (channel_id ch) = None ->
  (after_ms (Wsbc.read_inputs_and_update cfg hw now g)
     = Z.max 200 (Wsbc.POLL_INTERVAL_MS cfg) /\
   200 <= after_ms (Wsbc.read_inputs_and_update cfg hw now g)) /\
  (after_ms (TestWsbc.read_inputs_and_update cfg' hw now g')
     = Z.max 200 (TestWsbc.POLL_INTERVAL_MS cfg') /\
   200 <= after_ms (TestWsbc.read_inputs_and_update cfg' hw now g')).
Proof.
  intros H.
  unfold Wsbc.read_inputs_and_update, TestWsbc.read_inputs_and_update.
  rewrite (WsbcFacts.read_inputs_fails hw ch H); simpl.
  repeat split; lia.
Qed.

Lemma failed_read_backs_off_witness :
  hw_fails_third (channel_id WS_ADD) = None /\
  after_ms (Wsbc.read_inputs_and_update Wsbc.default_config hw_fails_third
              2000 Wsbc.initial) = 200 /\
  after_ms (TestWsbc.read_inputs_and_update
              (TestWsbc.mkConfig 1000 1000 1000 1000 350) hw_fails_third
              2000 TestWsbc.initial) = 350.
Proof.
  split; [reflexivity|].
  destruct (failed_read_backs_off Wsbc.default_config
              (TestWsbc.mkConfig 1000 1000 1000 1000 350) hw_fails_third 2000
              Wsbc.initial TestWsbc.initial WS_ADD eq_refl)
    as [[H1 _] [H2 _]].
  split; [exact H1 | exact H2].
Defined.

(** * More on the first script *)

Module WsbcMore.
Import Wsbc.

(** ** One sensor among the four *)

Lemma seen_by_event (cfg : Config) (ch : Channel) (t : Tick) (g : Globals) :
  tick_event cfg ch t g =
  match seen_by ch t with
  | Some (v, now) => snd (process_sample (delay_of cfg ch) v now (view ch g))
  | None => false
  end.
Proof.
  rewrite WsbcFacts.tick_event_sampled. unfold seen_by.
  destruct (sampled ch t); reflexivity.
Qed.

Lemma seen_by_view (cfg : Config) (ch : Channel) (t : Tick) (g : Globals) :
  view ch (step cfg t g) =
  match seen_by ch t with
  | Some (v, now) => fst (process_sample (delay_of cfg ch) v now (view ch g))
  | None => view ch g
  end.
Proof.
  rewrite WsbcFacts.view_step. unfold seen_by.
  destruct (sampled ch t); reflexivity.
Qed.

Lemma view_run_own_line (cfg : Config) (ch : Channel)
    (ticks ticks' : list Tick) :
  forall g g',
    view ch g = view ch g' ->
    map (seen_by ch) ticks = map (seen_by ch) ticks' ->
    view ch (run cfg ticks g) = view ch (run cfg ticks' g').
Proof.
  revert ticks'. induction ticks as [|t ticks IH]; intros [|t' ticks'] g g' Hv Hm;
    simpl in Hm; try discriminate.
  - exact Hv.
  - injection Hm as Ht Hrest. simpl. apply IH; [|exact Hrest].
    rewrite !seen_by_view, Ht, Hv. reflexivity.
Qed.

Lemma sums_run_own_lines (cfg : Config) (ticks ticks' : list Tick) :
  forall g g',
    (sum_ohb g = sum_ohb g' ->
     view OHB_ADD g = view OHB_ADD g' -> view OHB_SUB g = view OHB_SUB g' ->
     map (seen_by OHB_ADD) ticks = map (seen_by OHB_ADD) ticks' ->
     map (seen_by OHB_SUB) ticks = map (seen_by OHB_SUB) ticks' ->
     sum_ohb (run cfg ticks g) = sum_ohb (run cfg ticks' g')) /\
    (sum_ws g = sum_ws g' ->
     view WS_ADD g = view WS_ADD g' -> view WS_SUB g = view WS_SUB g' ->
     map (seen_by WS_ADD) ticks = map (seen_by WS_ADD) ticks' ->
     map (seen_by WS_SUB) ticks = map (seen_by WS_SUB) ticks' ->
     sum_ws (run cfg ticks g) = sum_ws (run cfg ticks' g')).
Proof.
  revert ticks'. induction ticks as [|t ticks IH]; intros [|t' ticks'] g g';
    split; intros Hs Va Vs Ma Ms; cbn [map] in Ma, Ms;
    try discriminate; try exact Hs; cbn [run].
  - injection Ma as Ta Ma. injection Ms as Ts Ms.
    apply (proj1 (IH ticks' (step cfg t g) (step cfg t' g'))); auto.
    + destruct (WsbcFacts.sums_tick cfg t g) as [-> _].
      destruct (WsbcFacts.sums_tick cfg t' g') as [-> _].
      rewrite !seen_by_event, Ta, Ts, Va, Vs, Hs. reflexivity.
    + rewrite !seen_by_view, Ta, Va. reflexivity.
    + rewrite !seen_by_view, Ts, Vs. reflexivity.
  - injection Ma as Ta Ma. injection Ms as Ts Ms.
    apply (proj2 (IH ticks' (step cfg t g) (step cfg t' g'))); auto.
    + destruct (WsbcFacts.sums_tick cfg t g) as [_ ->].
      destruct (WsbcFacts.sums_tick cfg t' g') as [_ ->].
      rewrite !seen_by_event, Ta, Ts, Va, Vs, Hs. reflexivity.
    + rewrite !seen_by_view, Ta, Va. reflexivity.
    + rewrite !seen_by_view, Ts, Vs. reflexivity.
Qed.

(** X1.  Along a run of ticks, the held flag and the release time of a
    sensor depend on nothing but its own flag and release time at the start
    and the levels read on its own line with the times of those reads.  And
    [sum_ohb] depends on nothing but its value at the start and the flags,
    release times and lines of the two overhead buffer sensors: what the
    wet section lines read, and the wet section flags, timers and sum, play
    no part; likewise [sum_ws] with the two wet section sensors.  (A tick
    whose read fails counts as reading nothing.) *)
Theorem sensor_sees_only_its_own_line (cfg : Config) (ch : Channel)
    (ticks ticks' : list Tick) (g g' : Globals) :
  (view ch g = view ch g' ->
   map (seen_by ch) ticks = map (seen_by ch) ticks' ->
   view ch (run cfg ticks g) = view ch (run cfg ticks' g')) /\
  (sum_ohb g = sum_ohb g' ->
   view OHB_ADD g = view OHB_ADD g' -> view OHB_SUB g = view OHB_SUB g' ->
   map (seen_by OHB_ADD) ticks = map (seen_by OHB_ADD) ticks' ->
   map (seen_by OHB_SUB) ticks = map (seen_by OHB_SUB) ticks' ->
   sum_ohb (run cfg ticks g) = sum_ohb (run cfg ticks' g')) /\
  (sum_ws g = sum_ws g' ->
   view WS_ADD g = view WS_ADD g' -> view WS_SUB g = view WS_SUB g' ->
   map (seen_by WS_ADD) ticks = map (seen_by WS_ADD) ticks' ->
   map (seen_by WS_SUB) ticks = map (seen_by WS_SUB) ticks' ->
   sum_ws (run cfg ticks g) = sum_ws (run cfg ticks' g')).
Proof.
  split; [apply view_run_own_line|].
  apply sums_run_own_lines.
Qed.

Lemma sensor_sees_only_its_own_line_witness :
  view OHB_ADD initial = view OHB_ADD after_ws_add /\
  sum_ohb initial = sum_ohb after_ws_add /\
  view OHB_ADD
    (run default_config
       [tick_at only_ohb_add 5000; mkTick hw_down 5005; tick_at all_low 5010]
       initial)
  = view OHB_ADD
      (run default_config
         [tick_at both_ohb 5000; mkTick hw_fails_third 7; tick_at both_ws 5010]
         after_ws_add) /\
  sum_ohb
    (run default_config
       [tick_at only_ohb_add 5000; mkTick hw_down 5005; tick_at all_low 5010]
       initial)
  = sum_ohb
      (run default_config
         [tick_at (mkSamples 1 0 1 1) 5000; mkTick hw_fails_third 7;
          tick_at both_ws 5010] after_ws_add).
Proof.
  split; [reflexivity|]. split; [reflexivity|].
  destruct (sensor_sees_only_its_own_line default_config OHB_ADD
              [tick_at only_ohb_add 5000; mkTick hw_down 5005;
               tick_at all_low 5010]
              [tick_at both_ohb 5000; mkTick hw_fails_third 7;
               tick_at both_ws 5010] initial after_ws_add) as [Hv _].
  destruct (sensor_sees_only_its_own_line default_config OHB_ADD
              [tick_at only_ohb_add 5000; mkTick hw_down 5005;
               tick_at all_low 5010]
              [tick_at (mkSamples 1 0 1 1) 5000; mkTick hw_fails_third 7;
               tick_at both_ws 5010] initial after_ws_add) as [_ [Ho _]].
  split; [apply Hv; reflexivity | apply Ho; reflexivity].
Defined.

(** ** The cooldown runs from the release *)

Lemma released_run_idle (cfg : Config) (ch : Channel) (ticks : list Tick) :
  forall g,
    is_held (view ch g) = false -> Forall (reads_inactive ch) ticks ->
    events_of cfg ch ticks g = repeat false (List.length ticks) /\
    view ch (run cfg ticks g) = view ch g.
Proof.
  induction ticks as [|t ticks IH]; intros g Hh Hall; simpl.
  - split; reflexivity.
  - inversion Hall as [|? ? Ht Hrest]; subst.
    assert (Hstep : tick_event cfg ch t g = false /\
                    view ch (step cfg t g) = view ch g).
    { rewrite WsbcFacts.tick_event_sampled, WsbcFacts.view_step.
      destruct (sampled ch t) as [v|] eqn:Hs; [|split; reflexivity].
      rewrite (WsbcFacts.process_sample_idle _ _ _ _ Hh (Ht v Hs)).
      split; reflexivity. }
    destruct Hstep as [He Hv].
    destruct (IH (step cfg t g)) as [IHe IHv];
      [rewrite Hv; exact Hh | exact Hrest |].
    rewrite He, IHe, IHv, Hv. split; reflexivity.
Qed.

Lemma events_of_app (cfg : Config) (ch : Channel) (xs ys : list Tick) :
  forall g,
    events_of cfg ch (xs ++ ys) g =
    events_of cfg ch xs g ++ events_of cfg ch ys (run cfg xs g).
Proof.
  induction xs as [|t xs IH]; intros g; simpl; [reflexivity|].
  rewrite IH. reflexivity.
Qed.

(** X2.  A held sensor is read at a level other than 1 on a tick at time
    [now_ms t0]: that tick records the release.  After any number of ticks
    that read it at levels other than 1 or fail to read, the next tick that
    reads it at 1 counts exactly when its time is at least the cooldown
    after the release tick; none of the ticks before it counts.  The sums
    go accordingly, tick by tick: as on ticks on which the sensor does not
    count up to the last one, and on the last one as on a tick on which it
    counts or not according to that test.  How long the sensor had been
    held plays no part. *)
Theorem rise_counts_iff_cooldown_since_release (cfg : Config) (ch : Channel)
    (g : Globals) (t0 t1 : Tick) (idle : list Tick) (low : Z) :
  is_held (view ch g) = true ->
  sampled ch t0 = Some low -> low <> 1 ->
  Forall (reads_inactive ch) idle ->
  sampled ch t1 = Some 1 ->
  events_of cfg ch (t0 :: idle ++ [t1]) g =
    false :: repeat false (List.length idle) ++
    [now_ms t1 - now_ms t0 >=? delay_of cfg ch] /\
  counted_as cfg ch (t0 :: idle ++ [t1])
    (false :: repeat false (List.length idle) ++
     [now_ms t1 - now_ms t0 >=? delay_of cfg ch]) g /\
  view ch (run cfg (t0 :: idle ++ [t1]) g) = mkDebounce true (now_ms t0).
Proof.
  intros Hh Hl Hne Hidle Hr.
  assert (H0 : tick_event cfg ch t0 g = false /\
               view ch (step cfg t0 g) = mkDebounce false (now_ms t0)).
  { rewrite WsbcFacts.tick_event_sampled, WsbcFacts.view_step, Hl.
    rewrite (WsbcFacts.process_sample_fall _ _ _ _ Hh Hne). split; reflexivity. }
  destruct H0 as [E0 V0].
  destruct (released_run_idle cfg ch idle (step cfg t0 g)) as [Ei Vi];
    [rewrite V0; reflexivity | exact Hidle |].
  rewrite V0 in Vi.
  destruct (WsbcFacts.rise_tick cfg ch t1 (run cfg idle (step cfg t0 g))
              (now_ms t0) Vi Hr) as [E1 V1].
  assert (He : events_of cfg ch (t0 :: idle ++ [t1]) g =
               false :: repeat false (List.length idle) ++
               [now_ms t1 - now_ms t0 >=? delay_of cfg ch]).
  { simpl. rewrite events_of_app, E0, Ei. simpl. rewrite E1. reflexivity. }
  split; [exact He|]. split.
  - rewrite <- He. apply WsbcFacts.counted_as_events.
  - simpl. rewrite <- V1. clear.
    generalize (step cfg t0 g). induction idle as [|t idle IH]; intros g0; simpl.
    + reflexivity.
    + apply IH.
Qed.

Lemma rise_counts_iff_cooldown_since_release_witness :
  is_held (view OHB_ADD (step default_config (tick_at only_ohb_add 2000) initial))
    = true /\
  events_of default_config OHB_ADD
    (tick_at all_low 9000 ::
     [tick_at all_low 9010; mkTick hw_down 9020] ++ [tick_at only_ohb_add 10000])
    (step default_config (tick_at only_ohb_add 2000) initial)
  = false :: repeat false 2 ++ [true] /\
  counted_as default_config OHB_ADD
    (tick_at all_low 9000 ::
     [tick_at all_low 9010; mkTick hw_down 9020] ++ [tick_at only_ohb_add 10000])
    (false :: repeat false 2 ++ [true])
    (step default_config (tick_at only_ohb_add 2000) initial) /\
  view OHB_ADD
    (run default_config
       (tick_at all_low 9000 ::
        [tick_at all_low 9010; mkTick hw_down 9020] ++
        [tick_at only_ohb_add 10000])
       (step default_config (tick_at only_ohb_add 2000) initial))
  = mkDebounce true 9000.
Proof.
  split; [reflexivity|].
  apply (rise_counts_iff_cooldown_since_release default_config OHB_ADD
           (step default_config (tick_at only_ohb_add 2000) initial)
           (tick_at all_low 9000) (tick_at only_ohb_add 10000)
           [tick_at all_low 9010; mkTick hw_down 9020] 0).
  - reflexivity.
  - reflexivity.
  - discriminate.
  - repeat constructor; intros v H; vm_compute in H; congruence.
  - reflexivity.
Defined.

(** ** The sums, tick by tick *)

Lemma bump_eq (e : bool) (x : Z) : bump e x = x + (if e then 1 else 0).
Proof. destruct e; simpl; lia. Qed.

Lemma drop_bounds (e : bool) (x : Z) :
  x - (if e then 1 else 0) <= drop e x <= x.
Proof.
  unfold drop. destruct e; simpl; [|lia].
  destruct (x >? 0); lia.
Qed.

Lemma count_true_cons (b : bool) (l : list bool) :
  count_true (b :: l) = (if b then 1 else 0) + count_true l.
Proof.
  unfold count_true. destruct b; simpl filter; [|lia].
  cbn [List.length]. lia.
Qed.

(** X3.  On every tick, failed reads included, [sum_ohb] moves by the add
    sensor's event and then by the subtract sensor's event (floored), and by
    nothing else: neither the wet section sensors nor the clock nor the
    remembered display values enter; likewise for [sum_ws].  So a sum moves
    by at most one per tick, and not at all when neither of its two sensors
    counts. *)
Theorem sum_moves_only_by_its_events (cfg : Config) (t : Tick) (g : Globals) :
  (sum_ohb (step cfg t g) =
     drop (tick_event cfg OHB_SUB t g)
       (bump (tick_event cfg OHB_ADD t g) (sum_ohb g)) /\
   sum_ws (step cfg t g) =
     drop (tick_event cfg WS_SUB t g)
       (bump (tick_event cfg WS_ADD t g) (sum_ws g))) /\
  (-1 <= sum_ohb (step cfg t g) - sum_ohb g <= 1 /\
   -1 <= sum_ws (step cfg t g) - sum_ws g <= 1) /\
  (tick_event cfg OHB_ADD t g = false -> tick_event cfg OHB_SUB t g = false ->
   sum_ohb (step cfg t g) = sum_ohb g) /\
  (tick_event cfg WS_ADD t g = false -> tick_event cfg WS_SUB t g = false ->
   sum_ws (step cfg t g) = sum_ws g).
Proof.
  destruct (WsbcFacts.sums_tick cfg t g) as [Eo Ew].
  split; [split; assumption|]. split; [|split].
  - rewrite Eo, Ew.
    pose proof (drop_bounds (tick_event cfg OHB_SUB t g)
                  (bump (tick_event cfg OHB_ADD t g) (sum_ohb g))) as Ho.
    pose proof (drop_bounds (tick_event cfg WS_SUB t g)
                  (bump (tick_event cfg WS_ADD t g) (sum_ws g))) as Hw.
    rewrite bump_eq in Ho, Hw |- *. rewrite bump_eq.
    destruct (tick_event cfg OHB_SUB t g), (tick_event cfg OHB_ADD t g),
      (tick_event cfg WS_SUB t g), (tick_event cfg WS_ADD t g); lia.
  - intros Ha Hs. rewrite Eo, Ha, Hs. reflexivity.
  - intros Ha Hs. rewrite Ew, Ha, Hs. reflexivity.
Qed.

Lemma sum_moves_only_by_its_events_witness :
  tick_event default_config OHB_ADD (tick_at both_ws 5000) after_release = false /\
  tick_event default_config OHB_SUB (tick_at both_ws 5000) after_release = false /\
  sum_ohb (step default_config (tick_at both_ws 5000) after_release)
    = sum_ohb after_release /\
  tick_event default_config WS_ADD (tick_at only_ohb_add 5000) after_ws_add = false /\
  tick_event default_config WS_SUB (tick_at only_ohb_add 5000) after_ws_add = false /\
  sum_ws (step default_config (tick_at only_ohb_add 5000) after_ws_add)
    = sum_ws after_ws_add.
Proof.
  destruct (sum_moves_only_by_its_events default_config (tick_at both_ws 5000)
              after_release) as [_ [_ [Ho _]]].
  destruct (sum_moves_only_by_its_events default_config
              (tick_at only_ohb_add 5000) after_ws_add) as [_ [_ [_ Hw]]].
  split; [reflexivity|]. split; [reflexivity|].
  split; [apply Ho; reflexivity|].
  split; [reflexivity|]. split; [reflexivity|].
  apply Hw; reflexivity.
Defined.

(** X4.  Along every run, from any globals, a sum ends no higher than where
    it started plus the number of ticks on which its add sensor counted, and
    no lower than that minus the number of ticks on which its subtract
    sensor counted. *)
Theorem sum_bounded_by_event_counts (cfg : Config) (ticks : list Tick) :
  forall g,
    (sum_ohb g + count_true (events_of cfg OHB_ADD ticks g)
       - count_true (events_of cfg OHB_SUB ticks g)
     <= sum_ohb (run cfg ticks g)
     <= sum_ohb g + count_true (events_of cfg OHB_ADD ticks g)) /\
    (sum_ws g + count_true (events_of cfg WS_ADD ticks g)
       - count_true (events_of cfg WS_SUB ticks g)
     <= sum_ws (run cfg ticks g)
     <= sum_ws g + count_true (events_of cfg WS_ADD ticks g)).
Proof.
  induction ticks as [|t ticks IH]; intros g; simpl.
  - unfold count_true; simpl. lia.
  - destruct (IH (step cfg t g)) as [IHo IHw].
    destruct (WsbcFacts.sums_tick cfg t g) as [Eo Ew].
    rewrite !count_true_cons.
    pose proof (drop_bounds (tick_event cfg OHB_SUB t g)
                  (bump (tick_event cfg OHB_ADD t g) (sum_ohb g))) as Ho.
    pose proof (drop_bounds (tick_event cfg WS_SUB t g)
                  (bump (tick_event cfg WS_ADD t g) (sum_ws g))) as Hw.
    rewrite <- Eo in Ho. rewrite <- Ew in Hw. rewrite bump_eq in Ho, Hw.
    split; lia.
Qed.

(** ** What the cards show *)

Lemma show_all_calls_for (sh : Shown) (pt po pw total ohb ws : Z) :
  show_all sh (calls_for pt po pw total ohb ws) =
  mkShown (if total =? pt then shown_total sh else total)
    (if ohb =? po then shown_ohb sh else ohb)
    (if ws =? pw then shown_ws sh else ws).
Proof.
  unfold calls_for, show_all. destruct sh as [a b c].
  destruct (total =? pt), (ohb =? po), (ws =? pw); reflexivity.
Qed.

Lemma in_step_tick (cfg : Config) (t : Tick) (g : Globals) (sh : Shown) :
  in_step g sh ->
  in_step (step cfg t g)
    (show_all sh (ui (read_inputs_and_update cfg (rel t) (now_ms t) g))).
Proof.
  intros [Hsh [Ho [Hw Hp]]].
  destruct (read_inputs (rel t)) as [s|] eqn:Hr.
  - destruct (WsbcFacts.ui_of_tick cfg (rel t) (now_ms t) s g Hr)
      as [Hc [Pt [Po Pw]]].
    destruct (WsbcFacts.sums_nonneg_step cfg t g (conj Ho Hw)) as [Ho' Hw'].
    unfold step in *. rewrite Hc, show_all_calls_for.
    set (g' := globals (read_inputs_and_update cfg (rel t) (now_ms t) g)) in *.
    split; [|split; [exact Ho' | split; [exact Hw' | right; auto]]].
    subst sh; simpl.
    destruct Hp as [[Et [Eo Ew]] | [Et [Eo Ew]]]; rewrite Et, Eo, Ew.
    + destruct (sum_ohb g' + sum_ws g' =? -1) eqn:E1;
        [apply Z.eqb_eq in E1; lia|].
      destruct (sum_ohb g' =? -1) eqn:E2; [apply Z.eqb_eq in E2; lia|].
      destruct (sum_ws g' =? -1) eqn:E3; [apply Z.eqb_eq in E3; lia|].
      reflexivity.
    + destruct (sum_ohb g' + sum_ws g' =? sum_ohb g + sum_ws g) eqn:E1;
        [apply Z.eqb_eq in E1|];
        (destruct (sum_ohb g' =? sum_ohb g) eqn:E2; [apply Z.eqb_eq in E2|]);
        (destruct (sum_ws g' =? sum_ws g) eqn:E3; [apply Z.eqb_eq in E3|]);
        congruence.
  - rewrite (WsbcFacts.step_failed _ _ _ Hr).
    unfold read_inputs_and_update. rewrite Hr. simpl.
    repeat split; assumption.
Qed.

Lemma in_step_run (cfg : Config) (ticks : list Tick) :
  forall g sh,
    in_step g sh ->
    in_step (run cfg ticks g) (show_all sh (run_calls cfg ticks g)).
Proof.
  induction ticks as [|t ticks IH]; intros g sh H; simpl; [exact H|].
  unfold show_all. rewrite fold_left_app. apply IH, in_step_tick, H.
Qed.

(** X5.  Along every run of ticks from the initial globals, with the cards
    showing 0 as they are created, the three cards show the current total,
    [sum_ohb] and [sum_ws] after every tick: telling the cards of changes
    only never leaves a stale number on the display. *)
Theorem cards_show_the_sums (cfg : Config) (ticks : list Tick) :
  show_all shown_at_start (run_calls cfg ticks initial) =
  mkShown
    (sum_ohb (run cfg ticks initial) + sum_ws (run cfg ticks initial))
    (sum_ohb (run cfg ticks initial))
    (sum_ws (run cfg ticks initial)).
Proof.
  apply (in_step_run cfg ticks initial shown_at_start).
  unfold in_step, initial, shown_at_start; simpl.
  split; [reflexivity|]. lia.
Qed.

End WsbcMore.

(** * The cards *)

Module CardFacts.

(** ** [pick_color_from_thresholds] *)

Lemma pick_color_some (value : Z) (ths : list Threshold) (default : string) :
  pick_color_from_thresholds value (Some ths) default =
  pick_color_loop value ths default.
Proof. destruct ths; reflexivity. Qed.

Lemma pick_color_loop_skip (value : Z) (pre rest : list Threshold)
    (default : string) :
  Forall (fun e => in_band value e = false) pre ->
  pick_color_loop value (pre ++ rest) default =
  pick_color_loop value rest default.
Proof.
  induction 1 as [|[[mn mx] col] pre Hth Hpre IH]; simpl; [reflexivity|].
  simpl in Hth. rewrite Hth. exact IH.
Qed.

(** X6.  The colour picked is that of the first entry of the table whose
    band holds the value, whatever comes after it, overlapping bands
    included; it is the default when no entry holds the value, when the
    table is empty and when there is no table. *)
Theorem first_band_wins (value : Z) (default : string) :
  pick_color_from_thresholds value None default = default /\
  (forall ths,
      Forall (fun e => in_band value e = false) ths ->
      pick_color_from_thresholds value (Some ths) default = default) /\
  (forall pre th post,
      Forall (fun e => in_band value e = false) pre ->
      in_band value th = true ->
      pick_color_from_thresholds value (Some (pre ++ th :: post)) default
      = snd th).
Proof.
  split; [reflexivity|]. split.
  - intros ths H. rewrite pick_color_some.
    rewrite <- (app_nil_r ths), (pick_color_loop_skip _ _ _ _ H).
    reflexivity.
  - intros pre [[mn mx] col] post Hpre Hth.
    rewrite pick_color_some, (pick_color_loop_skip _ _ _ _ Hpre).
    simpl. simpl in Hth. rewrite Hth. reflexivity.
Qed.

Lemma first_band_wins_witness :
  pick_color_from_thresholds 4 (Some [(Some 9, None, green)]) default_color
    = default_color /\
  pick_color_from_thresholds 4
    (Some ([(None, Some 2, red)] ++ (Some 3, Some 5, yellow) ::
           [(Some 4, None, green)])) default_color
    = yellow.
Proof.
  destruct (first_band_wins 4 default_color) as [_ [Hd Hf]].
  split.
  - apply Hd. repeat constructor.
  - apply (Hf [(None, Some 2, red)] (Some 3, Some 5, yellow)
             [(Some 4, None, green)]).
    + repeat constructor.
    + reflexivity.
Defined.

(** X7.  An entry whose lower bound is above its upper bound holds no value:
    the table picks as if the entry were not there. *)
Theorem empty_band_is_dead (value lo hi : Z) (col default : string)
    (pre post : list Threshold) :
  hi < lo ->
  pick_color_from_thresholds value
    (Some (pre ++ (Some lo, Some hi, col) :: post)) default =
  pick_color_from_thresholds value (Some (pre ++ post)) default.
Proof.
  intros H. rewrite !pick_color_some.
  induction pre as [|[[mn mx] c] pre IH]; simpl.
  - destruct (value >=? lo) eqn:E1; simpl; [|reflexivity].
    destruct (value <=? hi) eqn:E2; [|reflexivity].
    rewrite Z.geb_leb in E1. apply Z.leb_le in E1. apply Z.leb_le in E2. lia.
  - rewrite IH. reflexivity.
Qed.

Lemma empty_band_is_dead_witness :
  5 < 76 /\
  pick_color_from_thresholds 80
    (Some ([(None, Some 75, red)] ++ (Some 76, Some 5, yellow) ::
           [(Some 6, None, green)])) default_color =
  pick_color_from_thresholds 80
    (Some ([(None, Some 75, red)] ++ [(Some 6, None, green)])) default_color.
Proof.
  split; [lia|].
  apply (empty_band_is_dead 80 76 5 yellow default_color
           [(None, Some 75, red)] [(Some 6, None, green)]).
  lia.
Defined.

(** X8.  With the table of the first script, the colour picked is red up to
    2, yellow from 3 to 5 and green from 6 on, whatever the default colour
    given: every count has a band, the default colour is never used.  In
    particular this is the colour [set_value] computes for the fill of the
    overhead buffer bar. *)
Theorem ohb_bar_colours_first_script (v : Z) :
  (forall default,
      pick_color_from_thresholds v (Some OHB_THRESHOLDS_1) default =
      if v <=? 2 then red else if v <=? 5 then yellow else green) /\
  fill_color (Some OHB_THRESHOLDS_1) v =
    (if v <=? 2 then red else if v <=? 5 then yellow else green).
Proof.
  assert (H : forall default,
             pick_color_from_thresholds v (Some OHB_THRESHOLDS_1) default =
             if v <=? 2 then red else if v <=? 5 then yellow else green).
  { intros default. unfold OHB_THRESHOLDS_1; simpl.
    destruct (v <=? 2) eqn:E2; [reflexivity|].
    apply Z.leb_gt in E2.
    rewrite (WsbcFacts.geb_true_le v 3) by lia; simpl.
    destruct (v <=? 5) eqn:E5; [reflexivity|].
    apply Z.leb_gt in E5.
    rewrite (WsbcFacts.geb_true_le v 6) by lia. reflexivity. }
  split; [exact H | apply H].
Qed.

(** X9.  With the table of the second script, the overhead buffer bar is red
    up to 75 and green above: its yellow band, from 76 to 5, holds no value,
    so the bar is never yellow. *)
Theorem ohb_bar_colours_second_script (v : Z) :
  fill_color (Some OHB_THRESHOLDS_2) v = (if v <=? 75 then red else green) /\
  fill_color (Some OHB_THRESHOLDS_2) v <> yellow.
Proof.
  assert (E : fill_color (Some OHB_THRESHOLDS_2) v =
              if v <=? 75 then red else green).
  { unfold fill_color, OHB_THRESHOLDS_2; simpl.
    destruct (v <=? 75) eqn:E1; [reflexivity|].
    apply Z.leb_gt in E1.
    rewrite (WsbcFacts.geb_true_le v 76) by lia; simpl.
    destruct (v <=? 5) eqn:E5; [apply Z.leb_le in E5; lia|].
    rewrite (WsbcFacts.geb_true_le v 6) by lia. reflexivity. }
  split; [exact E|]. rewrite E.
  destruct (v <=? 75); discriminate.
Qed.

(** X10.  With the table the two scripts share, the fill of the wet section
    bar has the colour of the track under it, whatever the count. *)
Theorem ws_bar_is_track_grey (v : Z) :
  fill_color (Some WS_THRESHOLDS) v = track_grey.
Proof.
  unfold fill_color, WS_THRESHOLDS; simpl.
  destruct (v <=? 1) eqn:E1; [reflexivity|]. apply Z.leb_gt in E1.
  rewrite (WsbcFacts.geb_true_le v 2) by lia; simpl.
  destruct (v <=? 4) eqn:E4; [reflexivity|]. apply Z.leb_gt in E4.
  rewrite (WsbcFacts.geb_true_le v 5) by lia. reflexivity.
Qed.

(** ** [rounded_rect] *)

(** X11.  The polygon has twelve vertices, and they all lie in the rectangle
    from [(x1, y1)] to [(x2, y2)] exactly when the radius is not negative
    and not larger than the width or the height of the rectangle. *)
Theorem rounded_rect_in_box_iff_radius_fits (x1 y1 x2 y2 r : Z) :
  List.length (vertices (rounded_rect_points x1 y1 x2 y2 r)) = 12%nat /\
  (Forall (in_box x1 y1 x2 y2) (vertices (rounded_rect_points x1 y1 x2 y2 r))
   <-> 0 <= r /\ r <= x2 - x1 /\ r <= y2 - y1).
Proof.
  split; [reflexivity|]. simpl. unfold in_box. split.
  - intros H.
    inversion H as [|? ? H1 H']; subst; clear H.
    inversion H' as [|? ? _ H'']; subst; clear H'.
    inversion H'' as [|? ? _ H3]; subst; clear H''.
    inversion H3 as [|? ? H4 _]; subst; clear H3.
    simpl in *. lia.
  - intros [H0 [Hw Hh]]. repeat constructor; simpl; lia.
Qed.

End CardFacts.

(** * The trend graph *)

Module TrendGraphFacts.
Import TrendGraph.

Section Histories.

Context {T : Type}.
Variable draw : State T -> Z -> option unit.

(** ** [_limit_history] *)

Lemma limit_loop_negative (max : Z) (times : list T) :
  max < 0 -> forall ohb ws, limit_loop max times ohb ws = None.
Proof.
  intros Hm. induction times as [|t times IH]; intros ohb ws; simpl.
  - destruct (0 >? max) eqn:E; [reflexivity|].
    rewrite Z.gtb_ltb in E. apply Z.ltb_ge in E. lia.
  - destruct (Z.pos (Pos.of_succ_nat (List.length times)) >? max) eqn:E.
    + destruct ohb as [|o ohb]; [reflexivity|].
      destruct ws as [|w ws]; [reflexivity|]. simpl. apply IH.
    + rewrite Z.gtb_ltb in E. apply Z.ltb_ge in E. lia.
Qed.

Lemma limit_loop_drops (max : Z) (times : list T) :
  0 <= max ->
  forall ohb ws,
    limit_loop max times ohb ws =
    let k := (List.length times - Z.to_nat max)%nat in
    if (k <=? List.length ohb)%nat && (k <=? List.length ws)%nat
    then Some (skipn k times, skipn k ohb, skipn k ws)
    else None.
Proof.
  intros Hm. induction times as [|t times IH]; intros ohb ws.
  - simpl. destruct (0 >? max) eqn:E.
    + rewrite Z.gtb_ltb in E. apply Z.ltb_lt in E. lia.
    + reflexivity.
  - cbn [limit_loop].
    destruct (Z.of_nat (List.length (t :: times)) >? max) eqn:E;
      rewrite Z.gtb_ltb in E; [apply Z.ltb_lt in E | apply Z.ltb_ge in E];
      cbn [List.length] in *.
    + replace (S (List.length times) - Z.to_nat max)%nat
        with (S (List.length times - Z.to_nat max)) by lia.
      cbv zeta.
      destruct ohb as [|o ohb]; [reflexivity|].
      destruct ws as [|w ws]; cbn [pop0 bind_read List.length].
      * rewrite andb_false_r. reflexivity.
      * rewrite IH. reflexivity.
    + replace (S (List.length times) - Z.to_nat max)%nat with 0%nat by lia.
      reflexivity.
Qed.

(** X12.  [_limit_history] drops from the front of the three histories as
    many entries as [history_times] has above [max_points], and keeps the
    rest in order.  It raises when [max_points] is negative, and when one of
    the two count histories has fewer entries than are to be dropped;
    otherwise it does not. *)
Theorem limit_history_drops_the_excess (g : State T) :
  (max_points g < 0 -> _limit_history g = None) /\
  (0 <= max_points g ->
   _limit_history g =
   let k := (List.length (history_times g) - Z.to_nat (max_points g))%nat in
   if (k <=? List.length (history_ohb g))%nat &&
      (k <=? List.length (history_ws g))%nat
   then Some (mkState (max_points g) (skipn k (history_times g))
                (skipn k (history_ohb g)) (skipn k (history_ws g)))
   else None).
Proof.
  unfold _limit_history. split; intros Hm.
  - rewrite (limit_loop_negative _ _ Hm). reflexivity.
  - rewrite (limit_loop_drops _ _ Hm). cbv zeta.
    destruct ((_ <=? _)%nat && (_ <=? _)%nat); reflexivity.
Qed.

Lemma limit_history_aligned (g : State T) :
  aligned g -> 0 <= max_points g ->
  _limit_history g =
  Some (mkState (max_points g)
          (keep_last (max_points g) (history_times g))
          (keep_last (max_points g) (history_ohb g))
          (keep_last (max_points g) (history_ws g))).
Proof.
  intros [Ho Hw] Hm. unfold _limit_history.
  rewrite (limit_loop_drops _ _ Hm). cbv zeta. unfold keep_last.
  rewrite Ho, Hw.
  replace ((_ <=? _)%nat) with true
    by (symmetry; apply Nat.leb_le; lia).
  reflexivity.
Qed.

Lemma length_keep_last {A : Type} (n : Z) (l : list A) :
  0 <= n ->
  Z.of_nat (List.length (keep_last n l)) = Z.min (Z.of_nat (List.length l)) n.
Proof.
  intros Hn. unfold keep_last. rewrite length_skipn. lia.
Qed.

Lemma keep_last_snoc {A : Type} (n : Z) (l : list A) (x : A) :
  keep_last n (keep_last n l ++ [x]) = keep_last n (l ++ [x]).
Proof.
  unfold keep_last.
  rewrite !skipn_app, skipn_skipn, !length_app, !length_skipn.
  cbn [List.length].
  f_equal; f_equal; lia.
Qed.

(** ** [_redraw] *)

Lemma fold_max_spec (l : list Z) :
  forall x,
    x <= fold_left Z.max l x /\
    Forall (fun v => v <= fold_left Z.max l x) l /\
    (fold_left Z.max l x = x \/ In (fold_left Z.max l x) l).
Proof.
  induction l as [|y l IH]; intros x; simpl.
  - split; [lia|]. split; [constructor | left; reflexivity].
  - destruct (IH (Z.max x y)) as [H1 [H2 H3]].
    split; [lia|]. split; [constructor; [lia | exact H2]|].
    destruct H3 as [H3|H3]; [|right; right; exact H3].
    rewrite H3.
    destruct (Z.max_spec x y) as [[_ E]|[_ E]]; rewrite E;
      [right; left; reflexivity | left; reflexivity].
Qed.

Lemma list_max_spec (l : list Z) (m : Z) :
  list_max l = Some m -> Forall (fun v => v <= m) l /\ In m l.
Proof.
  destruct l as [|x l]; simpl; [discriminate|].
  intros H. injection H as <-.
  destruct (fold_max_spec l x) as [H1 [H2 H3]].
  split; [constructor; assumption|].
  destruct H3 as [H3|H3]; [left; symmetry; exact H3 | right; exact H3].
Qed.

(** X13.  When the three histories have the same length, the guard and the
    Y scale of [_redraw] do not raise.  With fewer than two points it draws
    nothing.  Otherwise the drawing part is run with a scale that is at
    least 1, is at least every recorded count, and is 1 or one of the
    recorded counts (so the scale is never a zero divisor, and no recorded
    count lies above it); [_redraw] raises exactly when that drawing part
    does. *)
Theorem redraw_scale_bounds_the_counts (g : State T) :
  aligned g ->
  match _redraw draw g with
  | None =>
      (2 <= List.length (history_times g))%nat /\
      exists m,
        draw g m = None /\
        1 <= m /\
        Forall (fun v => v <= m) (history_ohb g) /\
        Forall (fun v => v <= m) (history_ws g) /\
        (m = 1 \/ In m (history_ohb g) \/ In m (history_ws g))
  | Some Cleared => (List.length (history_times g) < 2)%nat
  | Some (Drawn m) =>
      (2 <= List.length (history_times g))%nat /\
      draw g m = Some tt /\
      1 <= m /\
      Forall (fun v => v <= m) (history_ohb g) /\
      Forall (fun v => v <= m) (history_ws g) /\
      (m = 1 \/ In m (history_ohb g) \/ In m (history_ws g))
  end.
Proof.
  intros [Ho Hw]. unfold _redraw.
  destruct (Z.of_nat (List.length (history_times g)) <? 2) eqn:E.
  - apply Z.ltb_lt in E. lia.
  - apply Z.ltb_ge in E.
    destruct (list_max (history_ohb g)) as [a|] eqn:Ea.
    2:{ destruct (history_ohb g); [simpl in Ho; lia | discriminate]. }
    destruct (list_max (history_ws g)) as [b|] eqn:Eb.
    2:{ destruct (history_ws g); [simpl in Hw; lia | discriminate]. }
    cbn [bind_read].
    destruct (list_max_spec _ _ Ea) as [Fa Ia].
    destruct (list_max_spec _ _ Eb) as [Fb Ib].
    assert (Hfacts :
      1 <= Z.max (Z.max a b) 1 /\
      Forall (fun v => v <= Z.max (Z.max a b) 1) (history_ohb g) /\
      Forall (fun v => v <= Z.max (Z.max a b) 1) (history_ws g) /\
      (Z.max (Z.max a b) 1 = 1 \/ In (Z.max (Z.max a b) 1) (history_ohb g) \/
       In (Z.max (Z.max a b) 1) (history_ws g))).
    { split; [lia|].
      split; [eapply Forall_impl; [|exact Fa]; simpl; lia|].
      split; [eapply Forall_impl; [|exact Fb]; simpl; lia|].
      destruct (Z.max_spec (Z.max a b) 1) as [[_ E1]|[_ E1]]; rewrite E1;
        [left; reflexivity|].
      destruct (Z.max_spec a b) as [[_ E2]|[_ E2]]; rewrite E2;
        [right; right; exact Ib | right; left; exact Ia]. }
    destruct (draw g (Z.max (Z.max a b) 1)) as [[]|] eqn:Ed; cbn [bind_read].
    + split; [lia|]. split; [exact Ed | exact Hfacts].
    + split; [lia|]. exists (Z.max (Z.max a b) 1).
      split; [exact Ed | exact Hfacts].
Qed.

Lemma redraw_aligned (g : State T) :
  aligned g -> draws_fine draw -> exists r, _redraw draw g = Some r.
Proof.
  intros [Ho Hw] Hd. unfold _redraw.
  destruct (Z.of_nat (List.length (history_times g)) <? 2) eqn:E;
    [eexists; reflexivity|].
  apply Z.ltb_ge in E.
  destruct (history_ohb g) as [|a ohb]; [simpl in Ho; lia|].
  destruct (history_ws g) as [|b ws]; [simpl in Hw; lia|].
  cbn [list_max bind_read]. rewrite Hd. eexists; reflexivity.
Qed.

(** ** [update_series] *)

Lemma aligned_keep_last (n : Z) (times : list T) (ohb ws : list Z) :
  List.length ohb = List.length times -> List.length ws = List.length times ->
  aligned (mkState n (keep_last n times) (keep_last n ohb) (keep_last n ws)).
Proof.
  intros Ho Hw. unfold aligned, keep_last; simpl.
  rewrite !length_skipn, Ho, Hw. split; reflexivity.
Qed.

Lemma update_series_limit (clock : T) (g : State T) (ohb ws : Z)
    (timestamp : option T) :
  aligned g -> 0 <= max_points g ->
  update_series draw clock g ohb ws timestamp =
  r <- _redraw draw
         (mkState (max_points g)
            (keep_last (max_points g)
               (history_times g ++
                [match timestamp with None => clock | Some t => t end]))
            (keep_last (max_points g) (history_ohb g ++ [ohb]))
            (keep_last (max_points g) (history_ws g ++ [ws]))) ;;
  Some (mkState (max_points g)
          (keep_last (max_points g)
             (history_times g ++
              [match timestamp with None => clock | Some t => t end]))
          (keep_last (max_points g) (history_ohb g ++ [ohb]))
          (keep_last (max_points g) (history_ws g ++ [ws])), r).
Proof.
  intros [Ho Hw] Hm. unfold update_series.
  rewrite limit_history_aligned; cbn [max_points history_times history_ohb
                                        history_ws bind_read];
    [reflexivity
    | split; simpl; rewrite !length_app, ?Ho, ?Hw; reflexivity
    | exact Hm].
Qed.

Lemma update_series_aligned (clock : T) (g : State T) (ohb ws : Z)
    (timestamp : option T) :
  aligned g -> 0 <= max_points g -> draws_fine draw ->
  option_map fst (update_series draw clock g ohb ws timestamp) =
  Some (mkState (max_points g)
          (keep_last (max_points g)
             (history_times g ++
              [match timestamp with None => clock | Some t => t end]))
          (keep_last (max_points g) (history_ohb g ++ [ohb]))
          (keep_last (max_points g) (history_ws g ++ [ws]))).
Proof.
  intros Ha Hm Hd. rewrite (update_series_limit _ _ _ _ _ Ha Hm).
  destruct Ha as [Ho Hw].
  destruct (redraw_aligned
              (mkState (max_points g)
                 (keep_last (max_points g)
                    (history_times g ++
                     [match timestamp with None => clock | Some t => t end]))
                 (keep_last (max_points g) (history_ohb g ++ [ohb]))
                 (keep_last (max_points g) (history_ws g ++ [ws]))))
    as [r Hr].
  - apply aligned_keep_last; rewrite !length_app, ?Ho, ?Hw; reflexivity.
  - exact Hd.
  - rewrite Hr. reflexivity.
Qed.

(** X14.  On a graph whose three histories have the same length and whose
    [max_points] is not negative, [update_series] appends the point (stamped
    with the given timestamp, or with the clock when none is given), keeps
    the last [max_points] points, oldest dropped first, order kept, and then
    redraws: it raises exactly when [_redraw] raises on the updated graph,
    which it does not when the drawing part does not raise.  The updated
    histories still have the same length, the smaller of the old length plus
    one and [max_points]. *)
Theorem update_series_keeps_the_newest (clock : T) (g : State T) (ohb ws : Z)
    (timestamp : option T) :
  aligned g -> 0 <= max_points g ->
  exists g',
    g' = mkState (max_points g)
           (keep_last (max_points g)
              (history_times g ++
               [match timestamp with None => clock | Some t => t end]))
           (keep_last (max_points g) (history_ohb g ++ [ohb]))
           (keep_last (max_points g) (history_ws g ++ [ws])) /\
    update_series draw clock g ohb ws timestamp =
      match _redraw draw g' with
      | Some r => Some (g', r)
      | None => None
      end /\
    (draws_fine draw ->
     exists r, update_series draw clock g ohb ws timestamp = Some (g', r)) /\
    aligned g' /\
    Z.of_nat (List.length (history_times g')) =
      Z.min (Z.of_nat (List.length (history_times g)) + 1) (max_points g).
Proof.
  intros Ha Hm. eexists. split; [reflexivity|].
  pose proof (update_series_limit clock g ohb ws timestamp Ha Hm) as H.
  destruct Ha as [Ho Hw].
  assert (Hal : aligned
            (mkState (max_points g)
               (keep_last (max_points g)
                  (history_times g ++
                   [match timestamp with None => clock | Some t => t end]))
               (keep_last (max_points g) (history_ohb g ++ [ohb]))
               (keep_last (max_points g) (history_ws g ++ [ws]))))
    by (apply aligned_keep_last; rewrite !length_app, ?Ho, ?Hw; reflexivity).
  split; [|split; [|split]].
  - rewrite H. destruct (_redraw draw _); reflexivity.
  - intros Hd. rewrite H.
    destruct (redraw_aligned _ Hal Hd) as [r Hr]. rewrite Hr.
    exists r. reflexivity.
  - exact Hal.
  - cbn [history_times]. rewrite length_keep_last by exact Hm.
    rewrite length_app. simpl. lia.
Qed.

(** ** Recording many points *)

Lemma keep_last_app {A : Type} (n : Z) (l l' : list A) :
  keep_last n (keep_last n l ++ l') = keep_last n (l ++ l').
Proof.
  unfold keep_last.
  rewrite !skipn_app, skipn_skipn, !length_app, !length_skipn.
  f_equal; f_equal; lia.
Qed.

Lemma keep_last_short {A : Type} (n : Z) (l : list A) :
  Z.of_nat (List.length l) <= n -> keep_last n l = l.
Proof.
  intros H. unfold keep_last.
  replace (List.length l - Z.to_nat n)%nat with 0%nat by lia.
  reflexivity.
Qed.

Lemma record_all_keeps_last (points : list (T * Z * Z)) :
  draws_fine draw ->
  forall g,
    aligned g ->
    Z.of_nat (List.length (history_times g)) <= max_points g ->
    record_all draw g points =
    Some (mkState (max_points g)
            (keep_last (max_points g)
               (history_times g ++ map (fun p => fst (fst p)) points))
            (keep_last (max_points g)
               (history_ohb g ++ map (fun p => snd (fst p)) points))
            (keep_last (max_points g)
               (history_ws g ++ map (fun p => snd p) points))).
Proof.
  intros Hd.
  induction points as [|[[t ohb] ws] points IH]; intros g Ha Hl.
  - destruct Ha as [Ho Hw]. simpl. rewrite !app_nil_r.
    rewrite !keep_last_short by lia. destruct g; reflexivity.
  - assert (Hm : 0 <= max_points g) by lia.
    pose proof (update_series_aligned t g ohb ws (Some t) Ha Hm Hd) as H.
    cbn [record_all].
    destruct (update_series draw t g ohb ws (Some t)) as [[g1 r]|];
      [|discriminate].
    simpl in H. injection H as H. cbn [bind_read fst].
    destruct Ha as [Ho Hw].
    rewrite IH; subst g1; cbn [max_points history_times history_ohb history_ws].
    + rewrite !keep_last_app, <- !app_assoc. reflexivity.
    + apply aligned_keep_last; rewrite !length_app, ?Ho, ?Hw; reflexivity.
    + rewrite length_keep_last by exact Hm. lia.
Qed.

End Histories.

(** X15.  As long as the drawing part of [_redraw] does not raise, points
    recorded one after the other on a graph as it is created are all
    recorded, and leave in each history the last 240 of them, in the order
    they came. *)
Theorem graph_holds_the_last_240_points (T : Type)
    (draw : State T -> Z -> option unit) (points : list (T * Z * Z)) :
  draws_fine draw ->
  record_all draw (create T) points =
  Some (mkState 240
          (keep_last 240 (map (fun p => fst (fst p)) points))
          (keep_last 240 (map (fun p => snd (fst p)) points))
          (keep_last 240 (map (fun p => snd p) points))).
Proof.
  intros Hd. apply (record_all_keeps_last draw points Hd (create T)).
  - split; reflexivity.
  - simpl. lia.
Qed.

Lemma graph_holds_the_last_240_points_witness :
  draws_fine (fun (_ : State Z) (_ : Z) => Some tt) /\
  record_all (fun _ _ => Some tt) (create Z) [(10, 1, 0); (20, 2, 0); (30, 2, 1)]
  = Some (mkState 240 [10; 20; 30] [1; 2; 2] [0; 0; 1]).
Proof.
  split; [intros g m; reflexivity|].
  exact (graph_holds_the_last_240_points Z (fun _ _ => Some tt)
           [(10, 1, 0); (20, 2, 0); (30, 2, 1)] (fun g m => eq_refl)).
Defined.

Lemma limit_history_drops_the_excess_witness :
  _limit_history (mkState (-1) [10; 20] [1; 2] [0; 0]) = None /\
  _limit_history (mkState 1 [10; 20; 30] [1; 2; 3] [0; 0; 1])
    = Some (mkState 1 [30] [3] [1]) /\
  _limit_history (mkState 1 [10; 20; 30] [1] [0; 0; 1]) = None.
Proof.
  destruct (limit_history_drops_the_excess
              (mkState (-1) [10; 20] [1; 2] [0; 0])) as [H1 _].
  destruct (limit_history_drops_the_excess
              (mkState 1 [10; 20; 30] [1; 2; 3] [0; 0; 1])) as [_ H2].
  destruct (limit_history_drops_the_excess
              (mkState 1 [10; 20; 30] [1] [0; 0; 1])) as [_ H3].
  split; [apply H1; simpl; lia|].
  split; [apply H2; simpl; lia | apply H3; simpl; lia].
Defined.

Lemma redraw_scale_bounds_the_counts_witness :
  aligned (mkState 240 [10; 20; 30] [1; 2; 1] [0; 0; 1]) /\
  (2 <= 3)%nat /\
  Some tt = Some tt /\
  1 <= 2 /\
  Forall (fun v => v <= 2) [1; 2; 1] /\
  Forall (fun v => v <= 2) [0; 0; 1] /\
  (2 = 1 \/ In 2 [1; 2; 1] \/ In 2 [0; 0; 1]).
Proof.
  split; [split; reflexivity|].
  exact (redraw_scale_bounds_the_counts (fun _ _ => Some tt)
           (mkState 240 [10; 20; 30] [1; 2; 1] [0; 0; 1])
           (conj eq_refl eq_refl)).
Defined.

Lemma update_series_keeps_the_newest_witness :
  aligned (mkState 2 [10; 20] [1; 2] [0; 0]) /\
  0 <= 2 /\
  update_series (fun _ _ => Some tt) 99 (mkState 2 [10; 20] [1; 2] [0; 0])
    3 1 (Some 30)
  = Some (mkState 2 [20; 30] [2; 3] [0; 1], Drawn 3) /\
  update_series (fun _ _ => None) 99 (mkState 2 [10; 20] [1; 2] [0; 0])
    3 1 (Some 30)
  = None.
Proof.
  split; [split; reflexivity|]. split; [lia|].
  destruct (update_series_keeps_the_newest (fun _ _ => Some tt) 99
              (mkState 2 [10; 20] [1; 2] [0; 0]) 3 1 (Some 30)
              (conj eq_refl eq_refl)) as [g1 [Eg1 [E1 _]]]; [simpl; lia|].
  destruct (update_series_keeps_the_newest (fun _ _ => None) 99
              (mkState 2 [10; 20] [1; 2] [0; 0]) 3 1 (Some 30)
              (conj eq_refl eq_refl)) as [g2 [Eg2 [E2 _]]]; [simpl; lia|].
  split.
  - rewrite E1, Eg1. reflexivity.
  - rewrite E2, Eg2. reflexivity.
Defined.

End TrendGraphFacts.

(** * More on the second script *)

Module TestWsbcFacts.
Import TestWsbc TestWsbcRun.

Ltac unfold_step2 :=
  unfold channel_step, emits, process_sample, delay_of, count_event, view,
    set_view; simpl.

Section Tick.

Variable cfg : Config.

Lemma view2_channel_step_same (ch : Channel) (s : Samples) (now : Z)
    (g : Globals) :
  view ch (channel_step cfg ch s now g) =
  fst (process_sample (delay_of cfg ch) (sample_of ch s) now (view ch g)).
Proof.
  destruct g as [so sw pt po pw f1 f2 f3 f4 t1 t2 t3 t4], s as [a b c d].
  destruct ch; unfold_step2.
  - destruct (a =? 1), f1; simpl; case_levels; reflexivity.
  - destruct (b =? 1), f2; simpl; case_levels; reflexivity.
  - destruct (c =? 1), f3; simpl; case_levels; reflexivity.
  - destruct (d =? 1), f4; simpl; case_levels; reflexivity.
Qed.

Lemma view2_channel_step_other (ch ch' : Channel) (s : Samples) (now : Z)
    (g : Globals) :
  ch <> ch' -> view ch' (channel_step cfg ch s now g) = view ch' g.
Proof.
  intros Hne.
  destruct g as [so sw pt po pw f1 f2 f3 f4 t1 t2 t3 t4], s as [a b c d].
  destruct ch, ch'; try congruence; unfold_step2.
  - destruct (a =? 1), f1; simpl; case_levels; reflexivity.
  - destruct (a =? 1), f1; simpl; case_levels; reflexivity.
  - destruct (a =? 1), f1; simpl; case_levels; reflexivity.
  - destruct (b =? 1), f2; simpl; case_levels; reflexivity.
  - destruct (b =? 1), f2; simpl; case_levels; reflexivity.
  - destruct (b =? 1), f2; simpl; case_levels; reflexivity.
  - destruct (c =? 1), f3; simpl; case_levels; reflexivity.
  - destruct (c =? 1), f3; simpl; case_levels; reflexivity.
  - destruct (c =? 1), f3; simpl; case_levels; reflexivity.
  - destruct (d =? 1), f4; simpl; case_levels; reflexivity.
  - destruct (d =? 1), f4; simpl; case_levels; reflexivity.
  - destruct (d =? 1), f4; simpl; case_levels; reflexivity.
Qed.

Lemma view2_debounce_all (ch : Channel) (s : Samples) (now : Z) (g : Globals) :
  view ch (debounce_all cfg s now g) =
  fst (process_sample (delay_of cfg ch) (sample_of ch s) now (view ch g)).
Proof.
  rewrite second_debounce_all_steps.
  destruct ch;
    repeat first
      [ rewrite view2_channel_step_other by discriminate
      | rewrite view2_channel_step_same ];
    reflexivity.
Qed.

Lemma sum2_ohb_channel_step (ch : Channel) (s : Samples) (now : Z)
    (g : Globals) :
  sum_ohb (channel_step cfg ch s now g) =
  match ch with
  | OHB_ADD => bump (emits cfg ch s now g) (sum_ohb g)
  | OHB_SUB => drop (emits cfg ch s now g) (sum_ohb g)
  | _ => sum_ohb g
  end.
Proof.
  destruct g as [so sw pt po pw f1 f2 f3 f4 t1 t2 t3 t4], s as [a b c d].
  destruct ch; unfold bump, drop; unfold_step2.
  - destruct (a =? 1), f1; simpl; case_levels; reflexivity.
  - destruct (b =? 1), f2; simpl; case_levels; reflexivity.
  - destruct (c =? 1), f3; simpl; case_levels; reflexivity.
  - destruct (d =? 1), f4; simpl; case_levels; reflexivity.
Qed.

Lemma sum2_ws_channel_step (ch : Channel) (s : Samples) (now : Z)
    (g : Globals) :
  sum_ws (channel_step cfg ch s now g) =
  match ch with
  | WS_ADD => bump (emits cfg ch s now g) (sum_ws g)
  | WS_SUB => drop (emits cfg ch s now g) (sum_ws g)
  | _ => sum_ws g
  end.
Proof.
  destruct g as [so sw pt po pw f1 f2 f3 f4 t1 t2 t3 t4], s as [a b c d].
  destruct ch; unfold bump, drop; unfold_step2.
  - destruct (a =? 1), f1; simpl; case_levels; reflexivity.
  - destruct (b =? 1), f2; simpl; case_levels; reflexivity.
  - destruct (c =? 1), f3; simpl; case_levels; reflexivity.
  - destruct (d =? 1), f4; simpl; case_levels; reflexivity.
Qed.

Lemma prev2_channel_step (ch : Channel) (s : Samples) (now : Z) (g : Globals) :
  prev_total (channel_step cfg ch s now g) = prev_total g /\
  prev_ohb (channel_step cfg ch s now g) = prev_ohb g /\
  prev_ws (channel_step cfg ch s now g) = prev_ws g.
Proof.
  destruct g as [so sw pt po pw f1 f2 f3 f4 t1 t2 t3 t4], s as [a b c d].
  destruct ch; unfold_step2.
  - destruct (a =? 1), f1; simpl; case_levels; repeat split; reflexivity.
  - destruct (b =? 1), f2; simpl; case_levels; repeat split; reflexivity.
  - destruct (c =? 1), f3; simpl; case_levels; repeat split; reflexivity.
  - destruct (d =? 1), f4; simpl; case_levels; repeat split; reflexivity.
Qed.

Lemma emits2_channel_step_other (ch ch' : Channel) (s : Samples) (now : Z)
    (g : Globals) :
  ch <> ch' ->
  emits cfg ch' s now (channel_step cfg ch s now g) = emits cfg ch' s now g.
Proof.
  intros Hne. unfold emits. rewrite view2_channel_step_other by exact Hne.
  reflexivity.
Qed.

Lemma sums2_debounce_all (s : Samples) (now : Z) (g : Globals) :
  sum_ohb (debounce_all cfg s now g) =
    drop (emits cfg OHB_SUB s now g)
      (bump (emits cfg OHB_ADD s now g) (sum_ohb g)) /\
  sum_ws (debounce_all cfg s now g) =
    drop (emits cfg WS_SUB s now g)
      (bump (emits cfg WS_ADD s now g) (sum_ws g)).
Proof.
  rewrite second_debounce_all_steps, !sum2_ohb_channel_step,
    !sum2_ws_channel_step.
  rewrite !emits2_channel_step_other by discriminate. split; reflexivity.
Qed.

Lemma prev2_debounce_all (s : Samples) (now : Z) (g : Globals) :
  prev_total (debounce_all cfg s now g) = prev_total g /\
  prev_ohb (debounce_all cfg s now g) = prev_ohb g /\
  prev_ws (debounce_all cfg s now g) = prev_ws g.
Proof.
  rewrite second_debounce_all_steps.
  repeat match goal with
    | |- context [prev_total (channel_step cfg ?h ?s ?n ?x)] =>
        destruct (prev2_channel_step h s n x) as [-> [-> ->]]
    end.
  repeat split; reflexivity.
Qed.

End Tick.

(** ** The display and the graph *)

Lemma ui2_calls (g : Globals) :
  snd (update_ui g) =
  with_graph
    (calls_for (prev_total g) (prev_ohb g) (prev_ws g)
       (sum_ohb g + sum_ws g) (sum_ohb g) (sum_ws g))
    (sum_ohb g) (sum_ws g).
Proof.
  destruct g as [so sw pt po pw f1 f2 f3 f4 t1 t2 t3 t4].
  unfold update_ui, calls_for, with_graph; simpl.
  destruct (so + sw =? pt); simpl; destruct (so =? po); simpl;
    destruct (sw =? pw); reflexivity.
Qed.

Lemma ui2_frame (g : Globals) :
  sum_ohb (fst (update_ui g)) = sum_ohb g /\
  sum_ws (fst (update_ui g)) = sum_ws g /\
  (forall ch, view ch (fst (update_ui g)) = view ch g) /\
  prev_total (fst (update_ui g)) = sum_ohb g + sum_ws g /\
  prev_ohb (fst (update_ui g)) = sum_ohb g /\
  prev_ws (fst (update_ui g)) = sum_ws g.
Proof.
  destruct g as [so sw pt po pw f1 f2 f3 f4 t1 t2 t3 t4].
  unfold update_ui; simpl.
  destruct (so + sw =? pt) eqn:Et; simpl; destruct (so =? po) eqn:Eo; simpl;
    destruct (sw =? pw) eqn:Ew; simpl;
    try apply Z.eqb_eq in Et; try apply Z.eqb_eq in Eo;
    try apply Z.eqb_eq in Ew;
    repeat split; try congruence; intros ch; destruct ch; reflexivity.
Qed.

Lemma step2_failed (cfg : Config) (t : Tick) (g : Globals) :
  read_inputs (rel t) = None -> step cfg t g = g.
Proof.
  unfold step, read_inputs_and_update. intros ->. reflexivity.
Qed.

Lemma step2_read (cfg : Config) (t : Tick) (s : Samples) (g : Globals) :
  read_inputs (rel t) = Some s ->
  step cfg t g = fst (update_ui (debounce_all cfg s (now_ms t) g)).
Proof.
  unfold step, read_inputs_and_update. intros ->.
  destruct (update_ui _); reflexivity.
Qed.

Lemma view2_step (cfg : Config) (ch : Channel) (t : Tick) (g : Globals) :
  view ch (step cfg t g) =
  match seen_by ch t with
  | Some (v, now) => fst (process_sample (delay_of cfg ch) v now (view ch g))
  | None => view ch g
  end.
Proof.
  unfold seen_by, sampled.
  destruct (read_inputs (rel t)) as [s|] eqn:Hr; simpl.
  - rewrite (step2_read _ _ _ _ Hr).
    destruct (ui2_frame (debounce_all cfg s (now_ms t) g))
      as [_ [_ [Hv _]]].
    rewrite Hv. apply view2_debounce_all.
  - rewrite (step2_failed _ _ _ Hr). reflexivity.
Qed.

Lemma tick_event2_seen (cfg : Config) (ch : Channel) (t : Tick) (g : Globals) :
  tick_event cfg ch t g =
  match seen_by ch t with
  | Some (v, now) => snd (process_sample (delay_of cfg ch) v now (view ch g))
  | None => false
  end.
Proof.
  unfold tick_event, seen_by, sampled, emits.
  destruct (read_inputs (rel t)); reflexivity.
Qed.

Lemma sums2_tick (cfg : Config) (t : Tick) (g : Globals) :
  sum_ohb (step cfg t g) =
    drop (tick_event cfg OHB_SUB t g)
      (bump (tick_event cfg OHB_ADD t g) (sum_ohb g)) /\
  sum_ws (step cfg t g) =
    drop (tick_event cfg WS_SUB t g)
      (bump (tick_event cfg WS_ADD t g) (sum_ws g)).
Proof.
  unfold tick_event. destruct (read_inputs (rel t)) as [s|] eqn:Hr.
  - rewrite (step2_read _ _ _ _ Hr).
    destruct (ui2_frame (debounce_all cfg s (now_ms t) g)) as [-> [-> _]].
    apply sums2_debounce_all.
  - rewrite (step2_failed _ _ _ Hr). split; reflexivity.
Qed.

Lemma sums2_nonneg_step (cfg : Config) (t : Tick) (g : Globals) :
  0 <= sum_ohb g /\ 0 <= sum_ws g ->
  0 <= sum_ohb (step cfg t g) /\ 0 <= sum_ws (step cfg t g).
Proof.
  intros [Ho Hw]. destruct (sums2_tick cfg t g) as [-> ->].
  split; apply WsbcFacts.drop_nonneg, WsbcFacts.bump_nonneg; assumption.
Qed.

Lemma ui2_of_tick (cfg : Config) (hw : Hardware) (now : Z) (s : Samples)
    (g : Globals) :
  read_inputs hw = Some s ->
  let o := read_inputs_and_update cfg hw now g in
  ui o =
    with_graph
      (calls_for (prev_total g) (prev_ohb g) (prev_ws g)
         (sum_ohb (globals o) + sum_ws (globals o))
         (sum_ohb (globals o)) (sum_ws (globals o)))
      (sum_ohb (globals o)) (sum_ws (globals o)) /\
  prev_total (globals o) = sum_ohb (globals o) + sum_ws (globals o) /\
  prev_ohb (globals o) = sum_ohb (globals o) /\
  prev_ws (globals o) = sum_ws (globals o).
Proof.
  intros Hr. unfold read_inputs_and_update. rewrite Hr.
  pose proof (ui2_calls (debounce_all cfg s now g)) as Hc.
  destruct (ui2_frame (debounce_all cfg s now g))
    as [Eo [Ew [_ [Pt [Po Pw]]]]].
  destruct (prev2_debounce_all cfg s now g) as [Et [Eo' Ew']].
  destruct (update_ui (debounce_all cfg s now g)) as [g' calls].
  simpl in *. rewrite Eo, Ew, <- Et, <- Eo', <- Ew'.
  split; [exact Hc|]. repeat split; assumption.
Qed.

(** ** The second script, tick by tick *)

Lemma counts_as2_tick_event (cfg : Config) (ch : Channel) (t : Tick)
    (g : Globals) :
  counts_as2 cfg ch (tick_event cfg ch t g) t g.
Proof.
  unfold counts_as2, tick_sums.
  destruct (sums2_tick cfg t g) as [-> ->].
  destruct ch; reflexivity.
Qed.

(** X16.  In the second script, what a tick does to one sensor is decided
    by that sensor's own delay and line alone.  When the read fails the tick
    leaves the globals as they were.  When it reads level [v] at time [now]:
    the two sums after the tick are those of a tick on which this sensor
    counts exactly when [v] is 1, it was not held and [now] is at least its
    own delay after its release time (an add sensor that counts raises its
    sum by one, a subtract sensor that counts lowers its sum by one, not
    below zero); afterwards the sensor is held exactly when [v] is 1; and
    its release time becomes [now] when it was held and [v] is not 1, and is
    unchanged otherwise. *)
Theorem second_script_sensor_rule (cfg : Config) (ch : Channel) (t : Tick)
    (g : Globals) :
  match sampled ch t with
  | None => step cfg t g = g
  | Some v =>
      counts_as2 cfg ch
        ((v =? 1) && negb (is_held (view ch g)) &&
         (now_ms t - last_release_time (view ch g) >=? delay_of cfg ch)) t g /\
      is_held (view ch (step cfg t g)) = (v =? 1) /\
      last_release_time (view ch (step cfg t g)) =
        if negb (v =? 1) && is_held (view ch g) then now_ms t
        else last_release_time (view ch g)
  end.
Proof.
  pose proof (counts_as2_tick_event cfg ch t g) as Hc.
  rewrite tick_event2_seen in Hc. rewrite view2_step.
  unfold seen_by in *. unfold sampled in *.
  destruct (read_inputs (rel t)) as [s|] eqn:Hr; cbn [option_map] in *.
  - revert Hc. unfold process_sample. destruct (view ch g) as [h r].
    cbn [is_held last_release_time].
    destruct (sample_of ch s =? 1), h; cbn [negb andb fst snd is_held last_release_time];
      intros Hc; repeat split; try exact Hc; reflexivity.
  - apply step2_failed, Hr.
Qed.





Lemma run2_preserves (cfg : Config) (P : Globals -> Prop) :
  (forall t g, P g -> P (step cfg t g)) ->
  forall ticks g, P g -> P (run cfg ticks g).
Proof.
  intros Hstep ticks. induction ticks as [|t ticks IH]; intros g Hg; simpl.
  - exact Hg.
  - apply IH, Hstep, Hg.
Qed.

(** X18.  In the second script, with any four delays, the two sums are never
    negative along a run from the initial globals; and every tick moves
    [sum_ohb] by the overhead buffer add event and then the floored subtract
    event, and [sum_ws] likewise, failed reads included. *)
Theorem second_script_sums (cfg : Config) (ticks : list Tick) :
  (0 <= sum_ohb (run cfg ticks initial) /\
   0 <= sum_ws (run cfg ticks initial)) /\
  (forall t g,
      sum_ohb (step cfg t g) =
        drop (tick_event cfg OHB_SUB t g)
          (bump (tick_event cfg OHB_ADD t g) (sum_ohb g)) /\
      sum_ws (step cfg t g) =
        drop (tick_event cfg WS_SUB t g)
          (bump (tick_event cfg WS_ADD t g) (sum_ws g))).
Proof.
  split.
  - apply (run2_preserves cfg (fun g => 0 <= sum_ohb g /\ 0 <= sum_ws g)).
    + intros t g. apply sums2_nonneg_step.
    + simpl. lia.
  - intros t g. apply sums2_tick.
Qed.

Lemma calls_for_nil (pt po pw total ohb ws : Z) :
  calls_for pt po pw total ohb ws = [] <->
  total = pt /\ ohb = po /\ ws = pw.
Proof.
  unfold calls_for.
  destruct (Z.eqb_spec total pt), (Z.eqb_spec ohb po), (Z.eqb_spec ws pw);
    simpl;
    (split;
     [ intros H; try discriminate H; auto
     | intros [? [? ?]]; try reflexivity; contradiction ]).
Qed.

Lemma calls_for_set_values (pt po pw total ohb ws : Z) :
  forallb is_set_value (calls_for pt po pw total ohb ws) = true.
Proof.
  unfold calls_for.
  destruct (total =? pt), (ohb =? po), (ws =? pw); reflexivity.
Qed.

Lemma in_with_graph (calls : list UiCall) (ohb ws a b : Z) :
  forallb is_set_value calls = true ->
  (In (GraphUpdateSeries a b) (with_graph calls ohb ws) <->
   calls <> [] /\ a = ohb /\ b = ws).
Proof.
  intros Hs. destruct calls as [|c calls]; simpl.
  - split; [contradiction | intros [H _]; congruence].
  - simpl in Hs. apply andb_prop in Hs. destruct Hs as [Hc Hs].
    rewrite forallb_forall in Hs. split.
    + intros [H|H].
      * subst c. discriminate.
      * apply in_app_or in H. destruct H as [H|[H|[]]].
        -- apply Hs in H. discriminate.
        -- injection H as <- <-. repeat split. discriminate.
    + intros [_ [-> ->]]. right. apply in_or_app. right. left. reflexivity.
Qed.

(** X19.  On a tick of the second script whose reads go through, the cards
    are told as in the first script (one [set_value] per value that differs
    from the remembered one), and the graph gets exactly one point, after
    those calls and carrying the new sums, when at least one of the three
    values differs from the remembered one, and none otherwise; the
    remembered values then are the new ones. *)
Theorem second_script_graph_fed_on_change (cfg : Config) (t : Tick)
    (s : Samples) (g : Globals) :
  read_inputs (rel t) = Some s ->
  let o := read_inputs_and_update cfg (rel t) (now_ms t) g in
  let ohb := sum_ohb (globals o) in
  let ws := sum_ws (globals o) in
  ui o =
    with_graph
      (calls_for (prev_total g) (prev_ohb g) (prev_ws g) (ohb + ws) ohb ws)
      ohb ws /\
  (forall a b,
      In (GraphUpdateSeries a b) (ui o) <->
      a = ohb /\ b = ws /\
      (ohb + ws <> prev_total g \/ ohb <> prev_ohb g \/ ws <> prev_ws g)) /\
  (prev_total (globals o), prev_ohb (globals o), prev_ws (globals o)) =
    (ohb + ws, ohb, ws).
Proof.
  intros Hr o ohb ws.
  destruct (ui2_of_tick cfg (rel t) (now_ms t) s g Hr) as [Hc [Pt [Po Pw]]].
  fold o in Hc, Pt, Po, Pw. fold ohb in Hc, Pt, Po, Pw. fold ws in Hc, Pt, Pw.
  split; [exact Hc|]. split; [|rewrite Pt, Po, Pw; reflexivity].
  intros a b. rewrite Hc, in_with_graph by apply calls_for_set_values.
  rewrite calls_for_nil. split.
  - intros [Hn [-> ->]]. repeat split. lia.
  - intros [-> [-> Hn]]. repeat split. lia.
Qed.

Lemma second_script_graph_fed_on_change_witness :
  read_inputs (rel (tick_at only_ohb_add 2000)) = Some only_ohb_add /\
  ui (read_inputs_and_update default_config (hw_of only_ohb_add) 2000 initial)
  = [TotalSetValue 1; OhbSetValue 1; WsSetValue 0; GraphUpdateSeries 1 0].
Proof.
  split; [reflexivity|].
  destruct (second_script_graph_fed_on_change default_config
              (tick_at only_ohb_add 2000) only_ohb_add initial eq_refl)
    as [H _].
  exact H.
Defined.

End TestWsbcFacts.

(** * The second script and its graph *)

Module WorldFacts.
Import TestWsbc TestWsbcRun.

Section World.

Context {T : Type}.
Variable draw : TrendGraph.State T -> Z -> option unit.

Lemma feed_graph_set_values (now_ts : T) (calls : list UiCall)
    (gr : TrendGraph.State T) :
  forallb is_set_value calls = true -> feed_graph draw now_ts calls gr = Some gr.
Proof.
  induction calls as [|c calls IH]; simpl; [reflexivity|].
  intros H. apply andb_prop in H. destruct H as [Hc H].
  destruct c; try discriminate; apply IH, H.
Qed.

Lemma feed_graph_then_point (now_ts : T) (calls : list UiCall) (a b : Z)
    (gr : TrendGraph.State T) :
  forallb is_set_value calls = true ->
  feed_graph draw now_ts (calls ++ [GraphUpdateSeries a b]) gr =
  option_map fst (TrendGraph.update_series draw now_ts gr a b (Some now_ts)).
Proof.
  induction calls as [|c calls IH]; simpl.
  - intros _. destruct (TrendGraph.update_series draw now_ts gr a b (Some now_ts));
      reflexivity.
  - intros H. apply andb_prop in H. destruct H as [Hc H].
    destruct c; try discriminate; apply IH, H.
Qed.

Lemma feed_with_graph (now_ts : T) (calls : list UiCall) (a b : Z)
    (gr : TrendGraph.State T) :
  forallb is_set_value calls = true ->
  feed_graph draw now_ts (with_graph calls a b) gr =
  match calls with
  | [] => Some gr
  | _ => option_map fst (TrendGraph.update_series draw now_ts gr a b (Some now_ts))
  end.
Proof.
  intros H. destruct calls as [|c calls]; [reflexivity|].
  unfold with_graph. apply feed_graph_then_point, H.
Qed.

Lemma keep_last_newest {A : Type} (n : Z) (l : list A) (x : A) :
  1 <= n -> exists older, TrendGraph.keep_last n (l ++ [x]) = older ++ [x].
Proof.
  intros Hn. unfold TrendGraph.keep_last.
  exists (skipn (List.length (l ++ [x]) - Z.to_nat n) l).
  rewrite skipn_app. f_equal.
  rewrite length_app; simpl.
  replace (List.length l + 1 - Z.to_nat n - List.length l)%nat with 0%nat
    by lia.
  reflexivity.
Qed.

Lemma Forall_keep_last {A : Type} (P : A -> Prop) (n : Z) (l : list A) :
  Forall P l -> Forall P (TrendGraph.keep_last n l).
Proof.
  intros H. unfold TrendGraph.keep_last.
  generalize (List.length l - Z.to_nat n)%nat as k.
  induction H as [|x l Hx Hl IH]; intros [|k]; simpl;
    try constructor; auto.
Qed.

Lemma world_step_failed (cfg : Config) (t : Tick) (now_ts : T) (w : World T) :
  read_inputs (rel t) = None -> world_step draw cfg t now_ts w = Some w.
Proof.
  intros Hr. unfold world_step, read_inputs_and_update. rewrite Hr.
  destruct w; reflexivity.
Qed.

Lemma world_ok_step (cfg : Config) (t : Tick) (now_ts : T) (w : World T) :
  TrendGraph.draws_fine draw ->
  world_ok w ->
  exists w',
    world_step draw cfg t now_ts w = Some w' /\
    w_globals w' = step cfg t (w_globals w) /\
    world_ok w'.
Proof.
  intros Hd Hok.
  destruct (read_inputs (rel t)) as [s|] eqn:Hr.
  2:{ exists w. rewrite (world_step_failed _ _ _ _ Hr).
      rewrite (TestWsbcFacts.step2_failed _ _ _ Hr). auto. }
  destruct w as [g gr].
  destruct Hok as [Hal [Hmax [Hlen [Fo [Fw [Ho [Hw Hrep]]]]]]].
  cbn [w_globals w_graph] in *.
  destruct (TestWsbcFacts.ui2_of_tick cfg (rel t) (now_ms t) s g Hr)
    as [Hc [Pt [Po Pw]]].
  destruct (TestWsbcFacts.sums2_nonneg_step cfg t g (conj Ho Hw)) as [Ho' Hw'].
  unfold world_step, step in *. cbn [w_globals w_graph].
  set (o := read_inputs_and_update cfg (rel t) (now_ms t) g) in *.
  rewrite Hc, feed_with_graph by apply TestWsbcFacts.calls_for_set_values.
  destruct (calls_for (prev_total g) (prev_ohb g) (prev_ws g)
              (sum_ohb (globals o) + sum_ws (globals o))
              (sum_ohb (globals o)) (sum_ws (globals o)))
    as [|c calls] eqn:Ecalls.
  - apply TestWsbcFacts.calls_for_nil in Ecalls.
    destruct Ecalls as [Et [Eo Ew]].
    exists (mkWorld (globals o) gr). split; [reflexivity|].
    split; [reflexivity|].
    unfold world_ok; cbn [w_globals w_graph].
    repeat (split; [assumption|]).
    destruct Hrep as [[_ [_ [Hn _]]] | [Ha [Hb [Qt [Qo Qw]]]]]; [lia|].
    right. rewrite Eo, Ew, Qo, Qw in *. repeat split; auto.
  - pose proof (TrendGraphFacts.update_series_aligned draw now_ts gr
                  (sum_ohb (globals o)) (sum_ws (globals o)) (Some now_ts)
                  Hal) as Hup.
    rewrite Hmax in Hup. specialize (Hup ltac:(lia) Hd).
    cbn [bind_read]. rewrite Hup. cbn [bind_read].
    eexists. split; [reflexivity|]. split; [reflexivity|].
    destruct Hal as [Halo Halw].
    unfold world_ok; cbn [w_globals w_graph TrendGraph.max_points
                            TrendGraph.history_times TrendGraph.history_ohb
                            TrendGraph.history_ws].
    split; [apply TrendGraphFacts.aligned_keep_last;
            rewrite !length_app, ?Halo, ?Halw; reflexivity|].
    split; [reflexivity|].
    split; [rewrite TrendGraphFacts.length_keep_last by lia; lia|].
    split; [apply Forall_keep_last, Forall_app; split;
            [exact Fo | constructor; [exact Ho' | constructor]]|].
    split; [apply Forall_keep_last, Forall_app; split;
            [exact Fw | constructor; [exact Hw' | constructor]]|].
    split; [exact Ho'|]. split; [exact Hw'|].
    right. split; [apply keep_last_newest; lia|].
    split; [apply keep_last_newest; lia|]. auto.
Qed.

End World.

(** X20.  When one of the reads of a tick of the second script raises, the
    globals are handed back unchanged, no card is told anything, and the
    graph gets no point and is not redrawn: the whole state of script and
    graph is as before the tick, whatever the drawing part would do. *)
Theorem second_script_failed_read_changes_nothing (T : Type)
    (draw : TrendGraph.State T -> Z -> option unit) (cfg : Config)
    (hw : Hardware) (now : Z) (now_ts : T) (w : World T) (ch : Channel) :
  hw (channel_id ch) = None ->
  globals (read_inputs_and_update cfg hw now (w_globals w)) = w_globals w /\
  ui (read_inputs_and_update cfg hw now (w_globals w)) = [] /\
  world_step draw cfg (mkTick hw now) now_ts w = Some w.
Proof.
  intros H.
  pose proof (WsbcFacts.read_inputs_fails hw ch H) as Hr.
  split; [|split].
  - unfold read_inputs_and_update. rewrite Hr. reflexivity.
  - unfold read_inputs_and_update. rewrite Hr. reflexivity.
  - apply world_step_failed. exact Hr.
Qed.

Lemma second_script_failed_read_changes_nothing_witness :
  hw_fails_third (channel_id WS_ADD) = None /\
  world_step (fun _ _ => None) default_config (mkTick hw_fails_third 2000) 7
    (mkWorld (step default_config (tick_at only_ohb_add 1500) initial)
       (TrendGraph.mkState 240 [5] [1] [0]))
  = Some (mkWorld (step default_config (tick_at only_ohb_add 1500) initial)
            (TrendGraph.mkState 240 [5] [1] [0])).
Proof.
  split; [reflexivity|].
  destruct (second_script_failed_read_changes_nothing Z (fun _ _ => None)
              default_config hw_fails_third 2000 7
              (mkWorld (step default_config (tick_at only_ohb_add 1500) initial)
                 (TrendGraph.mkState 240 [5] [1] [0])) WS_ADD eq_refl)
    as [_ [_ H]].
  exact H.
Defined.

(** X21.  As long as the drawing part of [_redraw] does not raise: along
    every run of ticks of the second script from its initial globals and a
    graph as created, whatever is read and whatever the two clocks show,
    every tick completes; the three histories of the graph have the same
    length, at most 240; no recorded count is negative; and as soon as
    anything was reported, the newest point of the graph is the current
    pair of sums. *)
Theorem graph_follows_the_sums (T : Type)
    (draw : TrendGraph.State T -> Z -> option unit) (cfg : Config)
    (ticks : list (Tick * T)) :
  TrendGraph.draws_fine draw ->
  exists w,
    world_run draw cfg ticks (world_at_start T) = Some w /\
    w_globals w = run cfg (map fst ticks) initial /\
    world_ok w.
Proof.
  intros Hd.
  assert (H : forall w0, world_ok w0 ->
            exists w, world_run draw cfg ticks w0 = Some w /\
                      w_globals w = run cfg (map fst ticks) (w_globals w0) /\
                      world_ok w).
  { induction ticks as [|[t ts] ticks IH]; intros w0 Hok; simpl.
    - exists w0. auto.
    - destruct (world_ok_step draw cfg t ts w0 Hd Hok) as [w1 [E1 [G1 Ok1]]].
      rewrite E1. cbn [bind_read].
      destruct (IH w1 Ok1) as [w [E [G Ok]]].
      exists w. rewrite G1 in G. auto. }
  apply H. unfold world_ok, world_at_start, TrendGraph.create, initial; simpl.
  split; [split; reflexivity|]. split; [reflexivity|]. split; [lia|].
  split; [constructor|]. split; [constructor|].
  split; [lia|]. split; [lia|]. left. repeat split; reflexivity.
Qed.

Lemma graph_follows_the_sums_witness :
  TrendGraph.draws_fine (fun (_ : TrendGraph.State Z) (_ : Z) => Some tt) /\
  exists w,
    world_run (fun _ _ => Some tt) default_config
      [(tick_at only_ohb_add 2000, 2); (tick_at only_ohb_add 2010, 3);
       (tick_at (mkSamples 0 0 1 0) 2020, 4)] (world_at_start Z) = Some w /\
    w_globals w =
      run default_config
        (map fst
           [(tick_at only_ohb_add 2000, 2); (tick_at only_ohb_add 2010, 3);
            (tick_at (mkSamples 0 0 1 0) 2020, 4)]) initial /\
    world_ok w.
Proof.
  split; [intros g m; reflexivity|].
  exact (graph_follows_the_sums Z (fun _ _ => Some tt) default_config
           [(tick_at only_ohb_add 2000, 2); (tick_at only_ohb_add 2010, 3);
            (tick_at (mkSamples 0 0 1 0) 2020, 4)] (fun g m => eq_refl)).
Defined.

End WorldFacts.

(** * The second script on the mock hardware *)

Module MockFacts.
Import TestWsbc TestWsbcRun.

Lemma mock_first_tick (cfg : Config) (now : Z) :
  read_inputs_and_update cfg mock_get_in now initial =
  mkOutcome zeros_reported
    [TotalSetValue 0; OhbSetValue 0; WsSetValue 0; GraphUpdateSeries 0 0]
    (POLL_INTERVAL_MS cfg).
Proof. reflexivity. Qed.

Lemma mock_later_tick (cfg : Config) (now : Z) :
  read_inputs_and_update cfg mock_get_in now zeros_reported =
  mkOutcome zeros_reported [] (POLL_INTERVAL_MS cfg).
Proof. reflexivity. Qed.

Lemma mock_no_event (cfg : Config) (ch : Channel) (now : Z) (g : Globals) :
  tick_event cfg ch (mkTick mock_get_in now) g = false.
Proof.
  rewrite TestWsbcFacts.tick_event2_seen.
  assert (Hs : seen_by ch (mkTick mock_get_in now) = Some (0, now))
    by (destruct ch; reflexivity).
  rewrite Hs. unfold process_sample.
  destruct (view ch g) as [[|] r]; reflexivity.
Qed.

Lemma mock_settled_run (cfg : Config) (times : list Z) :
  run cfg (map (mkTick mock_get_in) times) zeros_reported = zeros_reported.
Proof.
  induction times as [|now times IH]; simpl; [reflexivity|].
  unfold step. simpl rel. simpl now_ms. rewrite mock_later_tick. exact IH.
Qed.

(** X22.  On the mock hardware, whose lines all read 0, the second script
    never counts: no sensor has an event on any tick, and after the first
    tick, which reports three zeros and one graph point [(0, 0)], the
    globals stay as they are (sums 0, nothing held) and later ticks tell the
    display nothing. *)
Theorem mock_hardware_never_counts (cfg : Config) (now : Z) (times : list Z) :
  (forall ch g,
      events_of cfg ch (map (mkTick mock_get_in) (now :: times)) g =
      repeat false (List.length (now :: times))) /\
  run cfg (map (mkTick mock_get_in) (now :: times)) initial = zeros_reported /\
  ui (read_inputs_and_update cfg mock_get_in now initial) =
    [TotalSetValue 0; OhbSetValue 0; WsSetValue 0; GraphUpdateSeries 0 0] /\
  (forall later,
      ui (read_inputs_and_update cfg mock_get_in later
            (run cfg (map (mkTick mock_get_in) (now :: times)) initial)) = []).
Proof.
  assert (Hrun : run cfg (map (mkTick mock_get_in) (now :: times)) initial =
                 zeros_reported).
  { simpl. unfold step. simpl rel. simpl now_ms.
    rewrite mock_first_tick. apply mock_settled_run. }
  split; [|split; [exact Hrun | split; [reflexivity|]]].
  - intros ch. generalize (now :: times) as l.
    induction l as [|n l IH]; intros g; simpl; [reflexivity|].
    rewrite mock_no_event, IH. reflexivity.
  - intros later. rewrite Hrun, mock_later_tick. reflexivity.
Qed.

End MockFacts.
